(** * Bor receipt storage (core/rawdb/bor_receipt.go)

    A shallow embedding of the accessors of [core/rawdb/bor_receipt.go]:
    the tiered reader of bor receipts (freezer, key-value store, freezer
    again), the decoder with its legacy fallback, the enriched read, the
    writer and deleter, and the reverse index from the derived bor
    transaction hash to the block number.

    The accessors talk to the database through the [ethdb] interfaces. They
    are embedded as programs over the database calls they make, so that the
    order and number of probes is part of the model; a program is run
    against any implementation of the interfaces, and in particular against
    an in-memory database made of a finite map and a freezer. *)

From Stdlib Require Import NArith Lia.
From Stdlib Require Import Strings.Byte.
From stdpp Require Import base option list strings gmap.

Open Scope N_scope.

(** ** Bytes *)

Abbreviation byte := Byte.byte.
Abbreviation bytes := (list Byte.byte).

(** A Go [[]byte] is a list of bytes; the [nil] slice and the empty slice
    both have length zero and are the empty list. *)
Definition nil_bytes : bytes := [].

#[global] Instance byte_eq_dec : EqDecision byte := Byte.byte_eq_dec.

#[global] Program Instance byte_countable : Countable byte :=
  inj_countable Byte.to_N Byte.of_N _.
Next Obligation. intros b. apply Byte.of_to_N. Qed.

(** The conversion [byte(x)] of an unsigned integer: the low eight bits. *)
Definition byte_of_N (n : N) : byte :=
  match Byte.of_N (n mod 256) with
  | Some b => b
  | None => Byte.x00
  end.

(** [[]byte(s)] for a string constant. *)
Definition bytes_of_string (s : string) : bytes := String.list_byte_of_string s.

(** ** math/big, as far as the reverse index uses it *)

(** [uint64]: numbers below [2^64]. *)
Definition uint64_max : N := 2 ^ 64.

(** The byte of [n] at position [i], counted from the least significant. *)
Definition byteAt (n : N) (i : N) : byte := byte_of_N (N.shiftr n (8 * i)).

(** The eight bytes of a 64-bit word, most significant first. *)
Definition bigEndian64 (n : N) : bytes :=
  map (byteAt n) [7; 6; 5; 4; 3; 2; 1; 0].

(** Leading zero bytes are not part of a [big.Int]'s byte form. *)
Fixpoint stripLeadingZeros (b : bytes) : bytes :=
  match b with
  | Byte.x00 :: rest => stripLeadingZeros rest
  | _ => b
  end.

(** [big.NewInt(0).SetUint64(n).Bytes()]: the big-endian bytes of [n]
    without leading zeros; the empty slice for zero. *)
Definition SetUint64_Bytes (n : N) : bytes := stripLeadingZeros (bigEndian64 n).

(** [new(big.Int).SetBytes(b)]: [b] read as a big-endian unsigned integer. *)
Definition SetBytes (b : bytes) : N :=
  fold_left (fun acc x => acc * 256 + Byte.to_N x) b 0.

(** [x.Uint64()]: the low 64 bits. *)
Definition Uint64 (x : N) : N := x mod uint64_max.

Arguments SetUint64_Bytes : simpl never.
Arguments SetBytes : simpl never.
Arguments Uint64 : simpl never.

(** ** Database calls *)

(** Go errors; [None] is the [nil] error. *)
Definition error := string.

(** A value of a log record's context. *)
Inductive logval :=
| LNum (n : N)
| LBytes (b : bytes)
| LLen (n : nat)
| LErr (e : error).

(** The calls an accessor makes on its environment: the methods of
    [ethdb.Reader] and [ethdb.KeyValueWriter] it uses, and the two logging
    calls. *)
Inductive call :=
| Ancient (kind : string) (number : N)
| Get (key : bytes)
| Has (key : bytes)
| Put (key value : bytes)
| Delete (key : bytes)
| LogError (msg : string) (ctx : list (string * logval))
| LogCrit (msg : string) (ctx : list (string * logval)).

(** What a call gives back. A Go pair [(value, err)] is a pair whose second
    component is the error. [log.Crit] ends the process: it gives nothing
    back. *)
Definition reply (c : call) : Type :=
  match c with
  | Ancient _ _ => (bytes * option error)%type
  | Get _ => (bytes * option error)%type
  | Has _ => (bool * option error)%type
  | Put _ _ => option error
  | Delete _ => option error
  | LogError _ _ => unit
  | LogCrit _ _ => Empty_set
  end.

(** A program: a tree of calls, each continued on its reply. *)
Inductive prog (A : Type) : Type :=
| Ret (a : A)
| Do (c : call) (k : reply c -> prog A).
Arguments Ret {A} a.
Arguments Do {A} c k.

Fixpoint bind {A B} (p : prog A) (f : A -> prog B) : prog B :=
  match p with
  | Ret a => f a
  | Do c k => Do c (fun r => bind (k r) f)
  end.

#[global] Instance prog_ret : MRet prog := @Ret.
#[global] Instance prog_bind : MBind prog := fun A B f p => bind p f.

(** One call, returning its reply. *)
Definition perform (c : call) : prog (reply c) := Do c Ret.

(** [true] when the error is not [nil]. *)
Definition failed (err : option error) : bool :=
  match err with Some _ => true | None => false end.

(** ** Running a program against a database *)

(** [ethdb.Reader], restricted to the methods used here. A read gives back
    the next state of the database as well: the freezer runs in the
    background and may move data between two reads. *)
Class Reader (W : Type) := {
  db_Has : bytes -> W -> (bool * option error) * W;
  db_Get : bytes -> W -> (bytes * option error) * W;
  db_Ancient : string -> N -> W -> (bytes * option error) * W
}.

(** [ethdb.KeyValueWriter]. *)
Class KeyValueWriter (W : Type) := {
  db_Put : bytes -> bytes -> W -> option error * W;
  db_Delete : bytes -> W -> option error * W
}.

(** The outcome of a run: the calls made, in order, the final database, and
    the returned value; no value when [log.Crit] ended the process. *)
Record result (W A : Type) := Result {
  trace : list call;
  world : W;
  value : option A
}.
Arguments Result {W A} trace world value.
Arguments trace {W A} r.
Arguments world {W A} r.
Arguments value {W A} r.

Section Run.
Context {W : Type} `{!Reader W} `{!KeyValueWriter W}.

Definition handle (c : call) (w : W) : option (reply c * W) :=
  match c return option (reply c * W) with
  | Ancient kind number => Some (db_Ancient kind number w)
  | Get key => Some (db_Get key w)
  | Has key => Some (db_Has key w)
  | Put key v => Some (db_Put key v w)
  | Delete key => Some (db_Delete key w)
  | LogError _ _ => Some (tt, w)
  | LogCrit _ _ => None
  end.

Fixpoint run {A} (p : prog A) (w : W) : result W A :=
  match p with
  | Ret a => Result [] w (Some a)
  | Do c k =>
      match handle c w with
      | Some (r, w') =>
          let res := run (k r) w' in
          Result (c :: trace res) (world res) (value res)
      | None => Result [c] w None
      end
  end.

(** Running [p] and then [f] on its value. *)
Definition andThen {A B} (r : result W A) (f : A -> prog B) : result W B :=
  match value r with
  | Some a =>
      let r' := run (f a) (world r) in
      Result (trace r ++ trace r') (world r') (value r')
  | None => Result (trace r) (world r) None
  end.
End Run.

(** ** The in-memory database *)

(** Modelled from the spec: the two storage tiers, which the repository
    implements outside this file. The mutable tier is a key-value store with
    arbitrary insert, update and delete; the ancient tier is indexed by
    table name and block number and gives an absent (error) result for a
    number it does not hold. *)
Record DB := mkDB {
  kv : gmap bytes bytes;
  freezer : gmap (string * N) bytes
}.

(** Modelled from the spec: the errors of the two tiers for a key and for a
    number they do not hold. *)
Definition errNotFound : error := "not found".
Definition errOutOfBounds : error := "out of bounds".

(** Modelled from the spec: [Has(key) -> bool], presence of the key. *)
Definition kvHas (key : bytes) (db : DB) : bool * option error :=
  (bool_decide (is_Some (kv db !! key)), None).

(** Modelled from the spec: [Get(key) -> bytes]. *)
Definition kvGet (key : bytes) (db : DB) : bytes * option error :=
  match kv db !! key with
  | Some v => (v, None)
  | None => (nil_bytes, Some errNotFound)
  end.

(** Modelled from the spec: [Ancient(tableName, number) -> bytes]. *)
Definition ancientGet (kind : string) (number : N) (db : DB) : bytes * option error :=
  match freezer db !! (kind, number) with
  | Some v => (v, None)
  | None => (nil_bytes, Some errOutOfBounds)
  end.

(** Modelled from the spec: [Put(key, bytes)]. *)
Definition kvPut (key v : bytes) (db : DB) : DB :=
  mkDB (<[key := v]> (kv db)) (freezer db).

(** Modelled from the spec: [Delete(key)], a no-op on an absent key. *)
Definition kvDelete (key : bytes) (db : DB) : DB :=
  mkDB (delete key (kv db)) (freezer db).

Arguments kvHas : simpl never.
Arguments kvGet : simpl never.
Arguments ancientGet : simpl never.
Arguments kvPut : simpl never.
Arguments kvDelete : simpl never.

#[global] Instance DB_Reader : Reader DB := {
  db_Has key db := (kvHas key db, db);
  db_Get key db := (kvGet key db, db);
  db_Ancient kind number db := (ancientGet kind number db, db)
}.

#[global] Instance DB_Writer : KeyValueWriter DB := {
  db_Put key v db := (None, kvPut key v db);
  db_Delete key db := (None, kvDelete key db)
}.

(** A database with the freezer at work: after every read, the next step of
    the background migration, if any is left, is applied. *)
Record Racing := mkRacing {
  now : DB;
  background : list (DB -> DB)
}.

Definition tick (w : Racing) : Racing :=
  match background w with
  | [] => w
  | step :: rest => mkRacing (step (now w)) rest
  end.

#[global] Instance Racing_Reader : Reader Racing := {
  db_Has key w := (kvHas key (now w), tick w);
  db_Get key w := (kvGet key (now w), tick w);
  db_Ancient kind number w := (ancientGet kind number (now w), tick w)
}.

#[global] Instance Racing_Writer : KeyValueWriter Racing := {
  db_Put key v w := (None, mkRacing (kvPut key v (now w)) (background w));
  db_Delete key w := (None, mkRacing (kvDelete key (now w)) (background w))
}.

(** The freezer moving one block: the receipt stored under [key] goes to the
    receipt table [table] at [number], the block's hash bytes to the hash
    table [hashes], and the key-value entry is removed. *)
Definition freeze (table hashes : string) (number : N) (hashBytes key : bytes)
    (db : DB) : DB :=
  mkDB (delete key (kv db))
       (<[(hashes, number) := hashBytes]>
          (<[(table, number) := default nil_bytes (kv db !! key)]> (freezer db))).

(** ** Results of the rlp codec *)

Inductive res (A : Type) : Type :=
| Ok (a : A)
| Err (e : error).
Arguments Ok {A} a.
Arguments Err {A} e.

(** ** The accessors *)

Definition borTxLookupPrefixStr : string := "matic-bor-tx-lookup-".

(** freezerBorReceiptTable indicates the name of the freezer bor receipts
    table. *)
Definition freezerBorReceiptTable : string := "matic-bor-receipts".

(** Modelled from the spec: the name of the freezer table of canonical block
    hashes, a constant of the package's schema, declared outside this file;
    a fixed table name separate from the one of the records. *)
Definition freezerHashTable : string := "hashes".

Definition borTxLookupPrefix : bytes := bytes_of_string borTxLookupPrefixStr.

(** [log.Error(msg, ctx...)] *)
Definition logError (msg : string) (ctx : list (string * logval)) : prog unit :=
  perform (LogError msg ctx).

(** [log.Crit(msg, ctx...)]: logs and exits; nothing runs after it. *)
Definition logCrit {A} (msg : string) (ctx : list (string * logval)) : prog A :=
  Do (LogCrit msg ctx) (fun r : Empty_set => match r with end).

(** A database whose freezer holds only the hash bytes [h] of block
    [number], and one whose key-value store holds only the empty value at
    [key]. *)
Definition hashOnlyDB (number : N) (h : bytes) : DB :=
  mkDB ∅ {[ (freezerHashTable, number) := h ]}.

Definition emptyValueDB (key : bytes) : DB :=
  mkDB {[ key := nil_bytes ]} ∅.

(** A database whose freezer holds only the record bytes [data] of block
    [number], with no hash for the block. *)
Definition recordOnlyDB (number : N) (data : bytes) : DB :=
  mkDB ∅ {[ (freezerBorReceiptTable, number) := data ]}.

(** A database that refuses writes: reads see [snapshot], every [Put] and
    [Delete] gives an error and changes nothing. *)
Record ReadOnly := mkReadOnly {
  snapshot : DB
}.

Definition errReadOnly : error := "read only".

#[global] Instance ReadOnly_Reader : Reader ReadOnly := {
  db_Has key w := (kvHas key (snapshot w), w);
  db_Get key w := (kvGet key (snapshot w), w);
  db_Ancient kind number w := (ancientGet kind number (snapshot w), w)
}.

#[global] Instance ReadOnly_Writer : KeyValueWriter ReadOnly := {
  db_Put key v w := (Some errReadOnly, w);
  db_Delete key w := (Some errReadOnly, w)
}.

(** ** A small instance

    Stand-ins for the parts of the repository that the accessors are
    parameterised by, small enough to run: hashes are byte strings, the
    receipt key is a prefix, the block number and the hash, the derived
    hash is cut from the key, a receipt is a number and the codec reads
    one or several such numbers. *)
Module Sample.
Definition HashLength : nat := 32.

Definition zeroHash : bytes := replicate HashLength Byte.x00.

Definition HashBytes (h : bytes) : bytes := h.

(** The last 32 bytes, padded with zeros on the left. *)
Definition BytesToHash (b : bytes) : bytes :=
  let b' := drop (length b - HashLength) b in
  replicate (HashLength - length b') Byte.x00 ++ b'.

Definition borReceiptKey (number : N) (hash : bytes) : bytes :=
  bytes_of_string "matic-bor-receipt-" ++ bigEndian64 number ++ hash.

Definition getDerivedBorTxHash (key : bytes) : bytes := BytesToHash (reverse key).

(** A receipt is a number below 256; the single form is the byte 01 and
    the number, the sequence form the byte 02 and the numbers. *)
Definition DecodeBytes_receipt (data : bytes) : res N :=
  match data with
  | [Byte.x01; b] => Ok (Byte.to_N b)
  | _ => Err "rlp: expected a receipt"
  end.

Definition DecodeBytes_receipts (data : bytes) : res (list N) :=
  match data with
  | Byte.x02 :: rest => Ok (Byte.to_N <$> rest)
  | _ => Err "rlp: expected a list"
  end.

Definition EncodeToBytes (receipt : N) : res bytes :=
  Ok [Byte.x01; byte_of_N receipt].

Definition receiptsKey (hash : bytes) (number : N) : bytes :=
  bytes_of_string "r" ++ bigEndian64 number ++ hash.

Definition bodyKey (hash : bytes) (number : N) : bytes :=
  bytes_of_string "b" ++ bigEndian64 number ++ hash.

Definition canonicalKey (number : N) : bytes :=
  bytes_of_string "h" ++ bigEndian64 number ++ bytes_of_string "n".

Definition ReadRawReceipts (hash : bytes) (number : N) : prog (option (list N)) :=
  '(data, _) ← perform (Get (receiptsKey hash number));
  mret (match data with [] => None | _ :: rest => Some (Byte.to_N <$> rest) end).

(** A body is the list of its transactions, a transaction a number. *)
Definition Transactions (body : list N) : list N := body.

Definition ReadBody (hash : bytes) (number : N) : prog (option (list N)) :=
  '(data, _) ← perform (Get (bodyKey hash number));
  mret (match data with [] => None | _ :: rest => Some (Byte.to_N <$> rest) end).

Definition ReadCanonicalHash (number : N) : prog bytes :=
  '(data, _) ← perform (Get (canonicalKey number));
  mret (match data with [] => zeroHash | _ => BytesToHash data end).

(** The derivation adds the receipts before it to the cumulative number
    and fails above 255. *)
Definition DeriveFieldsForBorReceipt (receipt : N) (hash : bytes) (number : N)
    (receipts : list N) : N * option error :=
  let total := foldr N.add receipt receipts in
  if total <? 256 then (total, None) else (receipt, Some "gas overflow").

Definition NewBorTransaction : N := 0.

(** The hashes 0xab..ab, 0xcd..cd and 0xef..ef. *)
Definition hashAB : bytes := replicate HashLength Byte.xab.
Definition hashCD : bytes := replicate HashLength Byte.xcd.
Definition hashEF : bytes := replicate HashLength Byte.xef.

Definition receiptBytes : bytes := [Byte.x01; Byte.x07].

(** Block 50 frozen under the hash 0xcd..cd. *)
Definition frozen50 : DB :=
  mkDB ∅ {[ (freezerBorReceiptTable, 50) := receiptBytes;
            (freezerHashTable, 50) := hashCD ]}.

(** Block 100 under the hash 0xab..ab in the key-value store, with its
    receipts (5 and 6), its body (two transactions) and its canonical
    hash. *)
Definition live100 : DB :=
  mkDB {[ borReceiptKey 100 hashAB := receiptBytes;
          receiptsKey hashAB 100 := [Byte.x02; Byte.x05; Byte.x06];
          bodyKey hashAB 100 := [Byte.x02; Byte.x01; Byte.x02];
          canonicalKey 100 := hashAB ]} ∅.

(** Block 100 with its bor receipt alone; with its receipts but no body;
    with receipts too large for the derivation. *)
Definition onlyReceipt100 : DB :=
  mkDB {[ borReceiptKey 100 hashAB := receiptBytes ]} ∅.

Definition noBody100 : DB :=
  mkDB {[ borReceiptKey 100 hashAB := receiptBytes;
          receiptsKey hashAB 100 := [Byte.x02; Byte.x05; Byte.x06] ]} ∅.

Definition overflow100 : DB :=
  mkDB {[ borReceiptKey 100 hashAB := receiptBytes;
          receiptsKey hashAB 100 := [Byte.x02; Byte.xff; Byte.xff];
          bodyKey hashAB 100 := [Byte.x02; Byte.x01; Byte.x02] ]} ∅.

(** The reverse index entry of block 100, alone; with the canonical hash
    of the block; with the whole block. *)
Definition txHash100 : bytes := getDerivedBorTxHash (borReceiptKey 100 hashAB).

Definition lookupKey100 : bytes := borTxLookupPrefix ++ HashBytes txHash100.

Definition indexedOnly100 : DB :=
  mkDB {[ lookupKey100 := SetUint64_Bytes 100 ]} ∅.

Definition indexedNoBody100 : DB :=
  mkDB {[ lookupKey100 := SetUint64_Bytes 100; canonicalKey 100 := hashAB ]} ∅.

Definition indexed100 : DB := kvPut lookupKey100 (SetUint64_Bytes 100) live100.

Definition emptyDB : DB := mkDB ∅ ∅.

(** Block 100 with the freezer about to move it. *)
Definition migrating100 : Racing :=
  mkRacing live100
    [freeze freezerBorReceiptTable freezerHashTable 100 hashAB
       (borReceiptKey 100 hashAB)].

(** Block 100 with bytes that decode in neither form. *)
Definition garbled100 : DB :=
  mkDB {[ borReceiptKey 100 hashAB := [Byte.x03] ]} ∅.

(** An index entry of nine bytes: a leading 01 and the eight bytes of 100. *)
Definition longEntry100 : DB :=
  mkDB {[ lookupKey100 := Byte.x01 :: bigEndian64 100 ]} ∅.

(** A codec that refuses receipts above 255. *)
Definition EncodeSmall (receipt : N) : res bytes :=
  if receipt <? 256 then Ok [Byte.x01; byte_of_N receipt]
  else Err "rlp: receipt too large".
End Sample.

Section BorReceipt.
(** [common.Hash], a 32-byte array compared with [==], with its zero value
    [common.Hash{}], [hash.Bytes()] and [common.BytesToHash]. *)
Context {Hash : Type} `{!EqDecision Hash}.
Variable zeroHash : Hash.
Variable HashBytes : Hash -> bytes.
Variable BytesToHash : bytes -> Hash.

(** [types.BorReceiptKey] and [types.GetDerivedBorTxHash]. *)
Variable borReceiptKey : N -> Hash -> bytes.
Variable getDerivedBorTxHash : bytes -> Hash.

(** [types.Receipt]; [types.ReceiptForStorage] is the same struct under
    another name, and the accessors convert between pointers to the two. *)
Context {Receipt : Type}.
(** [rlp.DecodeBytes] into a [types.ReceiptForStorage] and into a
    [[]*types.ReceiptForStorage], and [rlp.EncodeToBytes]. *)
Variable DecodeBytes_receipt : bytes -> res Receipt.
Variable DecodeBytes_receipts : bytes -> res (list Receipt).
Variable EncodeToBytes : Receipt -> res bytes.

(** The collaborators of the enriched read and of the transaction lookup:
    [ReadRawReceipts] ([None] is the nil slice), [ReadBody] ([None] is the
    nil pointer), [ReadCanonicalHash], [types.DeriveFieldsForBorReceipt]
    (the receipt as it leaves it, and its error) and
    [types.NewBorTransaction]. *)
Context {Body Transaction : Type}.
Variable Transactions : Body -> list Transaction.
Variable ReadRawReceipts : Hash -> N -> prog (option (list Receipt)).
Variable ReadBody : Hash -> N -> prog (option Body).
Variable ReadCanonicalHash : N -> prog Hash.
Variable DeriveFieldsForBorReceipt :
  Receipt -> Hash -> N -> list Receipt -> Receipt * option error.
Variable NewBorTransaction : Transaction.

(** borTxLookupKey = borTxLookupPrefix + bor tx hash *)
Definition borTxLookupKey (hash : Hash) : bytes :=
  borTxLookupPrefix ++ HashBytes hash.

(** [len(data) > 0] *)
Definition nonEmpty (data : bytes) : bool := Nat.ltb 0 (length data).
#[local] Arguments nonEmpty : simpl never.

(** The context of the log records: ["number", number, "hash", hash]. *)
Definition ctxBlock (number : N) (hash : Hash) : list (string * logval) :=
  [("number", LNum number); ("hash", LBytes (HashBytes hash))].

(** HasBorReceipt verifies the existence of all block receipt belonging
    to a block. *)
Definition HasBorReceipt (hash : Hash) (number : N) : prog bool :=
  '(has, err) ← perform (Ancient freezerHashTable number);
  if negb (failed err) && bool_decide (BytesToHash has = hash) then mret true
  else
    '(has, err) ← perform (Has (borReceiptKey number hash));
    if negb has || failed err then mret false
    else mret true.

(** ReadBorReceiptRLP retrieves the block receipt belonging to a block in
    RLP encoding. The function returns from inside its first and second
    step; [fromLeveldb] is the function from its second step on, and
    [fromAncientAgain] from its third. *)
Definition ReadBorReceiptRLP (hash : Hash) (number : N) : prog bytes :=
  let fromAncientAgain : prog bytes :=
    (* In the background freezer is moving data from leveldb to flatten
       files. So during the first check for ancient db, the data is not
       yet in there, but when we reach into leveldb, the data was already
       moved. That would result in a not found error. *)
    '(data, _) ← perform (Ancient freezerBorReceiptTable number);
    if nonEmpty data then
      '(h, _) ← perform (Ancient freezerHashTable number);
      if bool_decide (BytesToHash h = hash) then mret data
      else mret nil_bytes
    else mret nil_bytes (* Can't find the data anywhere. *) in
  let fromLeveldb : prog bytes :=
    (* Then try to look up the data in leveldb. *)
    '(data, _) ← perform (Get (borReceiptKey number hash));
    if nonEmpty data then mret data
    else fromAncientAgain in
  (* First try to look up the data in ancient database. Extra hash
     comparison is necessary since ancient database only maintains the
     canonical data. *)
  '(data, _) ← perform (Ancient freezerBorReceiptTable number);
  if nonEmpty data then
    '(h, _) ← perform (Ancient freezerHashTable number);
    if bool_decide (BytesToHash h = hash) then mret data
    else fromLeveldb
  else fromLeveldb.

(** The decoding step of [ReadRawBorReceipt]: the statements that follow
    the retrieval of the non-empty [data]. *)
Definition decodeBorReceipt (hash : Hash) (number : N) (data : bytes)
    : prog (option Receipt) :=
  match DecodeBytes_receipt data with
  | Err _ =>
      match DecodeBytes_receipts data with
      | Err err =>
          _ ← logError "Invalid bor receipt array RLP"
                (ctxBlock number hash ++ [("err", LErr err)]);
          mret None
      | Ok storageReceipts =>
          let nReceipts := length storageReceipts in
          if bool_decide (nReceipts ≠ 1%nat) then
            _ ← logError "Invalid bor receipt array RLP length"
                  (ctxBlock number hash ++ [("nReceipts", LLen nReceipts)]);
            mret None
          else mret (storageReceipts !! 0%nat)
      end
  | Ok storageReceipt => mret (Some storageReceipt)
  end.

(** ReadRawBorReceipt retrieves the block receipt belonging to a block.
    The receipt metadata fields are not guaranteed to be populated, so
    they should not be used. Use ReadBorReceipt instead if the metadata
    is needed. *)
Definition ReadRawBorReceipt (hash : Hash) (number : N) : prog (option Receipt) :=
  data ← ReadBorReceiptRLP hash number;
  if Nat.eqb (length data) 0 then mret None
  else decodeBorReceipt hash number data.

(** ReadBorReceipt retrieves all the bor block receipts belonging to a
    block, including its correspoinding metadata fields. If it is unable
    to populate these metadata fields then nil is returned. *)
Definition ReadBorReceipt (hash : Hash) (number : N) : prog (option Receipt) :=
  borReceipt ← ReadRawBorReceipt hash number;
  match borReceipt with
  | None => mret None
  | Some borReceipt =>
      receipts ← ReadRawReceipts hash number;
      match receipts with
      | None => mret None
      | Some receipts =>
          body ← ReadBody hash number;
          match body with
          | None =>
              _ ← logError "Missing body but have bor receipt"
                    [("hash", LBytes (HashBytes hash)); ("number", LNum number)];
              mret None
          | Some _ =>
              let '(borReceipt, err) :=
                DeriveFieldsForBorReceipt borReceipt hash number receipts in
              match err with
              | Some e =>
                  _ ← logError "Failed to derive bor receipt fields"
                        [("hash", LBytes (HashBytes hash)); ("number", LNum number);
                         ("err", LErr e)];
                  mret None
              | None => mret (Some borReceipt)
              end
          end
      end
  end.

(** WriteBorReceipt stores all the bor receipt belonging to a block. *)
Definition WriteBorReceipt (hash : Hash) (number : N) (borReceipt : Receipt)
    : prog unit :=
  match EncodeToBytes borReceipt with
  | Err e => logCrit "Failed to encode bor receipt" [("err", LErr e)]
  | Ok encoded =>
      err ← perform (Put (borReceiptKey number hash) encoded);
      match err with
      | Some e => logCrit "Failed to store bor receipt" [("err", LErr e)]
      | None => mret tt
      end
  end.

(** DeleteBorReceipt removes receipt data associated with a block hash. *)
Definition DeleteBorReceipt (hash : Hash) (number : N) : prog unit :=
  let key := borReceiptKey number hash in
  err ← perform (Delete key);
  match err with
  | Some e => logCrit "Failed to delete bor receipt" [("err", LErr e)]
  | None => mret tt
  end.

(** ReadBorTxLookupEntry retrieves the positional metadata associated with
    a transaction hash to allow retrieving the bor transaction or bor
    receipt using tx hash. *)
Definition ReadBorTxLookupEntry (txHash : Hash) : prog (option N) :=
  '(data, _) ← perform (Get (borTxLookupKey txHash));
  if Nat.eqb (length data) 0 then mret None
  else
    let number := Uint64 (SetBytes data) in
    mret (Some number).

(** The result of the two transaction lookups: the transaction ([None] is
    the nil pointer), the block hash, the block number and the index. *)
Definition txResult : Type := (option Transaction * Hash * N * N)%type.

Definition noTransaction : txResult := (None, zeroHash, 0, 0).

(** ReadBorTransactionWithBlockHash retrieves a specific bor (fake)
    transaction by tx hash and block hash, along with its added
    positional metadata. *)
Definition ReadBorTransactionWithBlockHash (txHash blockHash : Hash)
    : prog txResult :=
  blockNumber ← ReadBorTxLookupEntry txHash;
  match blockNumber with
  | None => mret noTransaction
  | Some blockNumber =>
      body ← ReadBody blockHash blockNumber;
      match body with
      | None =>
          _ ← logError "Transaction referenced missing" (ctxBlock blockNumber blockHash);
          mret noTransaction
      | Some body =>
          mret (Some NewBorTransaction, blockHash, blockNumber,
                N.of_nat (length (Transactions body)))
      end
  end.

(** ReadBorTransaction retrieves a specific bor (fake) transaction by
    hash, along with its added positional metadata. *)
Definition ReadBorTransaction (hash : Hash) : prog txResult :=
  blockNumber ← ReadBorTxLookupEntry hash;
  match blockNumber with
  | None => mret noTransaction
  | Some blockNumber =>
      blockHash ← ReadCanonicalHash blockNumber;
      if bool_decide (blockHash = zeroHash) then mret noTransaction
      else
        body ← ReadBody blockHash blockNumber;
        match body with
        | None =>
            _ ← logError "Transaction referenced missing" (ctxBlock blockNumber blockHash);
            mret noTransaction
        | Some body =>
            mret (Some NewBorTransaction, blockHash, blockNumber,
                  N.of_nat (length (Transactions body)))
        end
  end.

(** WriteBorTxLookupEntry stores a positional metadata for bor transaction
    using block hash and block number *)
Definition WriteBorTxLookupEntry (hash : Hash) (number : N) : prog unit :=
  let txHash := getDerivedBorTxHash (borReceiptKey number hash) in
  err ← perform (Put (borTxLookupKey txHash) (SetUint64_Bytes number));
  match err with
  | Some e => logCrit "Failed to store bor transaction lookup entry" [("err", LErr e)]
  | None => mret tt
  end.

(** DeleteBorTxLookupEntryByTxHash removes bor transaction data associated
    with a bor tx hash. *)
Definition DeleteBorTxLookupEntryByTxHash (txHash : Hash) : prog unit :=
  err ← perform (Delete (borTxLookupKey txHash));
  match err with
  | Some e => logCrit "Failed to delete bor transaction lookup entry" [("err", LErr e)]
  | None => mret tt
  end.

(** DeleteBorTxLookupEntry removes bor transaction data associated with
    block hash and block number *)
Definition DeleteBorTxLookupEntry (hash : Hash) (number : N) : prog unit :=
  let txHash := getDerivedBorTxHash (borReceiptKey number hash) in
  DeleteBorTxLookupEntryByTxHash txHash.
(** ** The tiered reader and the decoder in the words of the design *)

(** One probe of the ancient store: the bytes of the record table at
    [number], when there are some and the hash recorded for [number]
    equals [hash]. *)
Definition probeAncient (hash : Hash) (number : N) : prog (option bytes) :=
  '(data, _) ← perform (Ancient freezerBorReceiptTable number);
  if nonEmpty data then
    '(h, _) ← perform (Ancient freezerHashTable number);
    mret (if bool_decide (BytesToHash h = hash) then Some data else None)
  else mret None.

(** The probe of the mutable store at the record key. *)
Definition probeMutable (hash : Hash) (number : N) : prog (option bytes) :=
  '(data, _) ← perform (Get (borReceiptKey number hash));
  mret (if nonEmpty data then Some data else None).

(** [FetchRaw]: ancient, mutable, ancient again, else absent. *)
Definition FetchRaw (hash : Hash) (number : N) : prog (option bytes) :=
  first ← probeAncient hash number;
  match first with
  | Some data => mret (Some data)
  | None =>
      second ← probeMutable hash number;
      match second with
      | Some data => mret (Some data)
      | None => probeAncient hash number
      end
  end.

(** The two failures of [Decode]. *)
Inductive decodeError :=
| InvalidLength (nReceipts : nat)
| Malformed (err : error).

(** [Decode]: a single record, else a sequence of exactly one record. *)
Definition Decode (data : bytes) : Receipt + decodeError :=
  match DecodeBytes_receipt data with
  | Ok record => inl record
  | Err _ =>
      match DecodeBytes_receipts data with
      | Ok [record] => inl record
      | Ok records => inr (InvalidLength (length records))
      | Err err => inr (Malformed err)
      end
  end.
(** ** Running programs *)

Lemma run_bind {W} `{!Reader W, !KeyValueWriter W} {A B}
    (p : prog A) (f : A -> prog B) (w : W) :
  run (p ≫= f) w = andThen (run p w) f.
Proof.
  revert w. induction p as [a | c k IH]; intros w.
  - unfold andThen. simpl. by destruct (run (f a) w).
  - change (run (Do c (fun r => k r ≫= f)) w = andThen (run (Do c k) w) f).
    simpl. destruct (handle c w) as [[r w'] |]; [| done].
    rewrite IH. unfold andThen. simpl. by destruct (value (run (k r) w')).
Qed.

Lemma run_ret {W} `{!Reader W, !KeyValueWriter W} {A} (a : A) (w : W) :
  run (mret a) w = Result [] w (Some a).
Proof. reflexivity. Qed.

Lemma result_eta {W A} (r : result W A) :
  r = Result (trace r) (world r) (value r).
Proof. by destruct r. Qed.
(** Case analysis on the replies of the database and on the tests of the
    accessors, for goals about [run] on an arbitrary database. *)
Ltac step_run :=
  match goal with
  | |- context [db_Ancient ?k ?n ?w] =>
      let data := fresh "data" in
      let err := fresh "err" in
      let w' := fresh "w" in
      destruct (db_Ancient k n w) as [[data err] w'] eqn:?
  | |- context [db_Get ?k ?w] =>
      let data := fresh "data" in
      let err := fresh "err" in
      let w' := fresh "w" in
      destruct (db_Get k w) as [[data err] w'] eqn:?
  | |- context [db_Has ?k ?w] =>
      let has := fresh "has" in
      let err := fresh "err" in
      let w' := fresh "w" in
      destruct (db_Has k w) as [[has err] w'] eqn:?
  | |- context [nonEmpty ?d] => destruct (nonEmpty d) eqn:?
  | |- context [bool_decide ?P] => destruct (bool_decide P) eqn:?
  end; cbn in *.

(** On every database the tiered reader runs as [FetchRaw] does. *)
Lemma run_ReadBorReceiptRLP {W} `{!Reader W, !KeyValueWriter W}
    (hash : Hash) (number : N) (w : W) :
  let fetched := run (FetchRaw hash number) w in
  run (ReadBorReceiptRLP hash number) w
  = Result (trace fetched) (world fetched) (default nil_bytes <$> value fetched).
Proof.
  unfold ReadBorReceiptRLP, FetchRaw, probeAncient, probeMutable. cbn.
  repeat step_run; reflexivity.
Qed.

(** [C3] The tiered reader makes exactly the probes of the design, in
    their order: on every database, also one that changes between two
    reads, [ReadBorReceiptRLP] makes the calls of [FetchRaw] (the ancient
    probe with its hash check, the probe of the key-value store at the
    record key, the ancient probe once more), leaves the database as
    [FetchRaw] does and returns what it finds, nil for absent. When the
    three probes miss it returns nil, after the calls of the three
    probes and no other; it neither logs nor ends the process. *)
Theorem ReadBorReceiptRLP_probe_sequence {W} `{!Reader W, !KeyValueWriter W}
    (hash : Hash) (number : N) (w : W) :
  (let fetched := run (FetchRaw hash number) w in
   run (ReadBorReceiptRLP hash number) w
   = Result (trace fetched) (world fetched) (default nil_bytes <$> value fetched))
  ∧ (let r1 := run (probeAncient hash number) w in
     let r2 := run (probeMutable hash number) (world r1) in
     let r3 := run (probeAncient hash number) (world r2) in
     value r1 = Some None → value r2 = Some None → value r3 = Some None →
     run (ReadBorReceiptRLP hash number) w
     = Result (trace r1 ++ trace r2 ++ trace r3) (world r3) (Some nil_bytes)).
Proof.
  split; [apply run_ReadBorReceiptRLP |].
  intros r1 r2 r3 H1 H2 H3. rewrite run_ReadBorReceiptRLP.
  unfold FetchRaw. rewrite run_bind. unfold andThen. fold r1. rewrite H1.
  rewrite run_bind. unfold andThen. fold r2. rewrite H2. fold r3.
  cbn [trace world value]. by rewrite H3.
Qed.
(** [C2] Ancient bytes under another hash are never returned. In a
    database whose ancient record table holds non-empty bytes for
    [number] while the hash the ancient hash table gives for [number]
    is not [hash], [ReadBorReceiptRLP] goes on to the key-value store
    after the first ancient probe and, when that holds nothing, to the
    second ancient probe: its result is the non-empty value stored at
    the record key, or nil. *)
Theorem ReadBorReceiptRLP_mismatched_ancient
    (db : DB) (hash : Hash) (number : N) (data : bytes) :
  freezer db !! (freezerBorReceiptTable, number) = Some data →
  data ≠ [] →
  BytesToHash (ancientGet freezerHashTable number db).1 ≠ hash →
  let stored := (kvGet (borReceiptKey number hash) db).1 in
  let probe := [Ancient freezerBorReceiptTable number;
                Ancient freezerHashTable number] in
  run (ReadBorReceiptRLP hash number) db
  = Result (probe ++ [Get (borReceiptKey number hash)]
                  ++ (if nonEmpty stored then [] else probe))
           db
           (Some (if nonEmpty stored then stored else nil_bytes)).
Proof.
  intros Hdata Hne Hhash stored probe. subst stored probe.
  assert (Hrec : ancientGet freezerBorReceiptTable number db = (data, None))
    by (unfold ancientGet; by rewrite Hdata).
  assert (Hlen : nonEmpty data = true) by (by destruct data).
  destruct (ancientGet freezerHashTable number db) as [h err] eqn:Hh.
  destruct (kvGet (borReceiptKey number hash) db) as [stored err'] eqn:Hget.
  cbn in Hhash |- *.
  assert (Hcmp : bool_decide (BytesToHash h = hash) = false)
    by (by apply bool_decide_eq_false_2).
  unfold ReadBorReceiptRLP. cbn. rewrite Hrec. cbn. rewrite Hlen. cbn.
  rewrite Hh. cbn. rewrite Hcmp. cbn. rewrite Hget. cbn.
  destruct (nonEmpty stored); cbn; [done |].
  rewrite Hrec. cbn. rewrite Hlen. cbn. rewrite Hh. cbn. by rewrite Hcmp.
Qed.
(** ** The in-memory database: what is read after a write *)

Lemma kvGet_kvPut (key v : bytes) (db : DB) :
  kvGet key (kvPut key v db) = (v, None).
Proof. unfold kvGet, kvPut. cbn. by rewrite lookup_insert_eq. Qed.

Lemma kvGet_kvDelete (key : bytes) (db : DB) :
  kvGet key (kvDelete key db) = (nil_bytes, Some errNotFound).
Proof. unfold kvGet, kvDelete. cbn. by rewrite lookup_delete_eq. Qed.

Lemma ancientGet_kvPut (kind : string) (number : N) (key v : bytes) (db : DB) :
  ancientGet kind number (kvPut key v db) = ancientGet kind number db.
Proof. reflexivity. Qed.

Lemma ancientGet_kvDelete (kind : string) (number : N) (key : bytes) (db : DB) :
  ancientGet kind number (kvDelete key db) = ancientGet kind number db.
Proof. reflexivity. Qed.

Lemma ancientGet_empty (kind : string) (number : N) (db : DB) :
  freezer db = ∅ → ancientGet kind number db = (nil_bytes, Some errOutOfBounds).
Proof. intros E. unfold ancientGet. by rewrite E, lookup_empty. Qed.

Lemma nonEmpty_nil : nonEmpty nil_bytes = false.
Proof. reflexivity. Qed.

Lemma nonEmpty_false (data : bytes) : nonEmpty data = false → data = nil_bytes.
Proof. by destruct data. Qed.

Create Rewrite HintDb bor.
Hint Rewrite kvGet_kvPut kvGet_kvDelete ancientGet_kvPut ancientGet_kvDelete
  nonEmpty_nil : bor.

(** Runs a program on the in-memory database as far as it computes. *)
Ltac run_db := repeat progress (cbn; autorewrite with bor).

(** [C4] Write, read, delete, read, with nothing in the ancient store.
    When the record encodes to [encoded], [WriteBorReceipt] puts
    [encoded] at the record key and returns; [ReadBorReceiptRLP] then
    returns [encoded]; [DeleteBorReceipt] then returns, and
    [ReadBorReceiptRLP] after it returns nil. *)
Theorem WriteBorReceipt_read_delete
    (db : DB) (hash : Hash) (number : N) (borReceipt : Receipt) (encoded : bytes) :
  freezer db = ∅ →
  EncodeToBytes borReceipt = Ok encoded →
  let written := run (WriteBorReceipt hash number borReceipt) db in
  let deleted := run (DeleteBorReceipt hash number) (world written) in
  trace written = [Put (borReceiptKey number hash) encoded]
  ∧ value written = Some tt
  ∧ value (run (ReadBorReceiptRLP hash number) (world written)) = Some encoded
  ∧ value deleted = Some tt
  ∧ value (run (ReadBorReceiptRLP hash number) (world deleted)) = Some nil_bytes.
Proof.
  intros Hfreezer Henc written deleted. subst written deleted.
  unfold WriteBorReceipt, DeleteBorReceipt. rewrite Henc. cbn.
  split_and!; try done.
  - unfold ReadBorReceiptRLP. run_db. rewrite !(ancientGet_empty _ _ _ Hfreezer).
    run_db. destruct (nonEmpty encoded) eqn:Hlen; run_db; [done |].
    rewrite !(ancientGet_empty _ _ _ Hfreezer). run_db.
    by rewrite (nonEmpty_false _ Hlen).
  - unfold ReadBorReceiptRLP. run_db. rewrite !(ancientGet_empty _ _ _ Hfreezer).
    run_db. rewrite ?(ancientGet_empty _ _ _ Hfreezer). by run_db.
Qed.
(** [C6] [HasBorReceipt] on a database state. It returns [true] exactly
    when the ancient hash table holds bytes for [number] that make the
    queried hash, or the key-value store holds the record key, whatever
    the value under it, the empty one included. *)
Theorem HasBorReceipt_iff (db : DB) (hash : Hash) (number : N) :
  ∃ b : bool,
    value (run (HasBorReceipt hash number) db) = Some b
    ∧ (b = true ↔
         (∃ h, freezer db !! (freezerHashTable, number) = Some h
               ∧ BytesToHash h = hash)
         ∨ is_Some (kv db !! borReceiptKey number hash)).
Proof.
  unfold HasBorReceipt. cbn. unfold ancientGet.
  destruct (freezer db !! (freezerHashTable, number)) as [h |] eqn:Hh; cbn;
    [destruct (decide (BytesToHash h = hash)) as [Heq | Hne];
       [rewrite bool_decide_eq_true_2 by done
       | rewrite bool_decide_eq_false_2 by done]; cbn |].
  - exists true. split; [done |]. split; [| done]. intros _. left. by exists h.
  - unfold kvHas.
    destruct (decide (is_Some (kv db !! borReceiptKey number hash))) as [Hk | Hk];
      [rewrite bool_decide_eq_true_2 by done
      | rewrite bool_decide_eq_false_2 by done]; cbn.
    + exists true. split; [done |]. split; [intros _; by right | done].
    + exists false. split; [done |]. split; [done |].
      intros [(h' & Hh' & Heq) | Hs]; [congruence | done].
  - unfold kvHas.
    destruct (decide (is_Some (kv db !! borReceiptKey number hash))) as [Hk | Hk];
      [rewrite bool_decide_eq_true_2 by done
      | rewrite bool_decide_eq_false_2 by done]; cbn.
    + exists true. split; [done |]. split; [intros _; by right | done].
    + exists false. split; [done |]. split; [done |].
      intros [(h' & Hh' & Heq) | Hs]; done.
Qed.

(** [C9] Existence without a readable record. When the ancient hash
    table records the hash at [number] while the ancient record table and
    the key-value store hold nothing, and also when the key-value store
    holds the empty value at the record key, [HasBorReceipt] returns
    [true] and [ReadBorReceiptRLP] returns nil. *)
Theorem HasBorReceipt_without_record :
  (∀ (number : N) (h : bytes),
      let db := hashOnlyDB number h in
      let hash := BytesToHash h in
      value (run (HasBorReceipt hash number) db) = Some true
      ∧ value (run (ReadBorReceiptRLP hash number) db) = Some nil_bytes)
  ∧ (∀ (hash : Hash) (number : N),
      let db := emptyValueDB (borReceiptKey number hash) in
      value (run (HasBorReceipt hash number) db) = Some true
      ∧ value (run (ReadBorReceiptRLP hash number) db) = Some nil_bytes).
Proof.
  split.
  - intros number h db hash. subst db hash.
    assert (Hh : ∀ db', freezer db' = {[ (freezerHashTable, number) := h ]} →
              ancientGet freezerHashTable number db' = (h, None)).
    { intros db' E. unfold ancientGet. by rewrite E, lookup_singleton_eq. }
    assert (Hr : ∀ db', freezer db' = {[ (freezerHashTable, number) := h ]} →
              ancientGet freezerBorReceiptTable number db'
              = (nil_bytes, Some errOutOfBounds)).
    { intros db' E. unfold ancientGet. by rewrite E, lookup_singleton_ne. }
    split.
    + unfold HasBorReceipt. cbn. rewrite Hh by done. cbn.
      by rewrite bool_decide_eq_true_2.
    + unfold ReadBorReceiptRLP. run_db. rewrite !Hr by done. run_db.
      unfold kvGet. cbn. rewrite lookup_empty. run_db.
      rewrite !Hr by done. by run_db.
  - intros hash number db. subst db. split.
    + unfold HasBorReceipt. cbn. rewrite ancientGet_empty by done. cbn.
      unfold kvHas. cbn. rewrite lookup_singleton_eq.
      by rewrite bool_decide_eq_true_2.
    + unfold ReadBorReceiptRLP. run_db. rewrite !ancientGet_empty by done.
      run_db. unfold kvGet. cbn. rewrite lookup_singleton_eq. run_db.
      rewrite !ancientGet_empty by done. by run_db.
Qed.
(** One step of a run through a bind whose first part is known. *)
Ltac run_seq H :=
  rewrite run_bind; unfold andThen; rewrite H; cbn [trace world value].

(** [C5] The decoding step of [ReadRawBorReceipt], on every byte string
    and every database, is [Decode]: the single record when the first
    decoding succeeds; otherwise the sole element of the decoded sequence;
    nil with the error record "Invalid bor receipt array RLP length" when
    the sequence has no or several elements; nil with the error record
    "Invalid bor receipt array RLP" when both decodings fail. It makes no
    database call. [ReadRawBorReceipt] is this step on the non-empty
    bytes that [ReadBorReceiptRLP] returns. *)
Theorem decodeBorReceipt_Decode {W} `{!Reader W, !KeyValueWriter W}
    (hash : Hash) (number : N) (data : bytes) (w : W) :
  run (decodeBorReceipt hash number data) w
  = match Decode data with
    | inl record => Result [] w (Some (Some record))
    | inr (InvalidLength nReceipts) =>
        Result [LogError "Invalid bor receipt array RLP length"
                  (ctxBlock number hash ++ [("nReceipts", LLen nReceipts)])]
               w (Some None)
    | inr (Malformed err) =>
        Result [LogError "Invalid bor receipt array RLP"
                  (ctxBlock number hash ++ [("err", LErr err)])]
               w (Some None)
    end
  ∧ (let fetched := run (ReadBorReceiptRLP hash number) w in
     let decoded := run (decodeBorReceipt hash number data) (world fetched) in
     value fetched = Some data → data ≠ [] →
     run (ReadRawBorReceipt hash number) w
     = Result (trace fetched ++ trace decoded) (world decoded) (value decoded)).
Proof.
  split.
  - unfold decodeBorReceipt, Decode.
    destruct (DecodeBytes_receipt data) as [record | e]; [done |].
    destruct (DecodeBytes_receipts data) as [[| record [| record' records]] | e'];
      done.
  - intros fetched decoded Hdata Hne. subst fetched decoded.
    unfold ReadRawBorReceipt. run_seq Hdata. by destruct data.
Qed.

(** [C7] The enriched read after a readable raw record, on every
    database. It returns nil when [ReadRawReceipts] gives nil, and then
    does not read the body; it returns nil and logs when [ReadBody] gives
    nil; it returns nil and logs when [DeriveFieldsForBorReceipt] gives an
    error; otherwise it returns the receipt as the derivation leaves it.
    In each case the raw record, the receipts and the body are read at
    most once, in this order. *)
Theorem ReadBorReceipt_enriched {W} `{!Reader W, !KeyValueWriter W}
    (hash : Hash) (number : N) (w : W) (raw : Receipt) :
  let r0 := run (ReadRawBorReceipt hash number) w in
  let r1 := run (ReadRawReceipts hash number) (world r0) in
  let r2 := run (ReadBody hash number) (world r1) in
  let derived := DeriveFieldsForBorReceipt raw hash number in
  value r0 = Some (Some raw) →
  (value r1 = Some None →
   run (ReadBorReceipt hash number) w
   = Result (trace r0 ++ trace r1) (world r1) (Some None))
  ∧ (∀ receipts, value r1 = Some (Some receipts) → value r2 = Some None →
     run (ReadBorReceipt hash number) w
     = Result (trace r0 ++ trace r1 ++ trace r2
                 ++ [LogError "Missing body but have bor receipt"
                       [("hash", LBytes (HashBytes hash)); ("number", LNum number)]])
              (world r2) (Some None))
  ∧ (∀ receipts body e,
       value r1 = Some (Some receipts) → value r2 = Some (Some body) →
       (derived receipts).2 = Some e →
       run (ReadBorReceipt hash number) w
       = Result (trace r0 ++ trace r1 ++ trace r2
                   ++ [LogError "Failed to derive bor receipt fields"
                         [("hash", LBytes (HashBytes hash)); ("number", LNum number);
                          ("err", LErr e)]])
                (world r2) (Some None))
  ∧ (∀ receipts body,
       value r1 = Some (Some receipts) → value r2 = Some (Some body) →
       (derived receipts).2 = None →
       run (ReadBorReceipt hash number) w
       = Result (trace r0 ++ trace r1 ++ trace r2) (world r2)
                (Some (Some (derived receipts).1))).
Proof.
  intros r0 r1 r2 derived H0. subst r0 r1 r2. split_and!.
  - intros H1. unfold ReadBorReceipt. run_seq H0. run_seq H1.
    by rewrite app_nil_r.
  - intros receipts H1 H2. unfold ReadBorReceipt. run_seq H0. run_seq H1.
    by run_seq H2.
  - intros receipts body e H1 H2 He. unfold ReadBorReceipt. run_seq H0.
    run_seq H1. run_seq H2. fold (derived receipts).
    destruct (derived receipts) as [enriched err]. cbn in He. by subst err.
  - intros receipts body H1 H2 He. unfold ReadBorReceipt. run_seq H0.
    run_seq H1. run_seq H2. fold (derived receipts).
    destruct (derived receipts) as [enriched err]. cbn in He. subst err. cbn.
    by rewrite app_nil_r.
Qed.
(** [C10] [ReadBorTransaction] on every database. It returns the absent
    result (no transaction, the zero hash, number zero, index zero) when
    the reverse index has no entry, when the canonical hash of the
    indexed number is the zero hash, and when the body of that block is
    absent; and whenever it returns a transaction, the block hash it
    returns with it is not the zero hash. *)
Theorem ReadBorTransaction_absent {W} `{!Reader W, !KeyValueWriter W}
    (hash : Hash) (w : W) :
  let r0 := run (ReadBorTxLookupEntry hash) w in
  (value r0 = Some None →
   value (run (ReadBorTransaction hash) w) = Some noTransaction)
  ∧ (∀ blockNumber, value r0 = Some (Some blockNumber) →
       let r1 := run (ReadCanonicalHash blockNumber) (world r0) in
       (value r1 = Some zeroHash →
        value (run (ReadBorTransaction hash) w) = Some noTransaction)
       ∧ (∀ blockHash,
            value r1 = Some blockHash →
            value (run (ReadBody blockHash blockNumber) (world r1)) = Some None →
            value (run (ReadBorTransaction hash) w) = Some noTransaction))
  ∧ (∀ tx blockHash blockNumber index,
       value (run (ReadBorTransaction hash) w)
       = Some (Some tx, blockHash, blockNumber, index) →
       blockHash ≠ zeroHash).
Proof.
  intros r0. subst r0. split_and!.
  - intros H0. unfold ReadBorTransaction. by run_seq H0.
  - intros blockNumber H0 r1. subst r1. split.
    + intros H1. unfold ReadBorTransaction. run_seq H0. run_seq H1.
      by rewrite bool_decide_eq_true_2.
    + intros blockHash H1 H2. unfold ReadBorTransaction. run_seq H0. run_seq H1.
      destruct (bool_decide (blockHash = zeroHash)); [done |]. by run_seq H2.
  - intros tx blockHash blockNumber index. unfold ReadBorTransaction.
    rewrite run_bind. unfold andThen.
    destruct (value (run (ReadBorTxLookupEntry hash) w)) as [[n |] |];
      cbn [trace world value]; [| done | done].
    rewrite run_bind. unfold andThen.
    destruct (value (run (ReadCanonicalHash n) _)) as [bh |];
      cbn [trace world value]; [| done].
    destruct (bool_decide (bh = zeroHash)) eqn:Hz; [done |].
    apply bool_decide_eq_false_1 in Hz.
    rewrite run_bind. unfold andThen.
    destruct (value (run (ReadBody bh n) _)) as [[body |] |];
      cbn [trace world value]; [| done | done].
    cbn. intros [= _ <- _ _]. done.
Qed.

(** ** The reverse index on the in-memory database *)

(** [C8] Deleting an index entry. After [DeleteBorTxLookupEntry], and
    after [DeleteBorTxLookupEntryByTxHash], [ReadBorTxLookupEntry] on the
    hash in question returns nil. [WriteBorTxLookupEntry] and
    [DeleteBorTxLookupEntry] for the same block act on the same key, the
    lookup key of the hash derived from the receipt key: deleting after
    writing leaves the store as deleting alone does. *)
Theorem DeleteBorTxLookupEntry_read
    (db : DB) (hash : Hash) (number : N) (otherTxHash : Hash) :
  let txHash := getDerivedBorTxHash (borReceiptKey number hash) in
  let put := run (WriteBorTxLookupEntry hash number) db in
  let del := run (DeleteBorTxLookupEntry hash number) (world put) in
  trace put = [Put (borTxLookupKey txHash) (SetUint64_Bytes number)]
  ∧ trace del = [Delete (borTxLookupKey txHash)]
  ∧ world del = kvDelete (borTxLookupKey txHash) db
  ∧ value (run (ReadBorTxLookupEntry txHash) (world del)) = Some None
  ∧ value (run (ReadBorTxLookupEntry txHash)
             (world (run (DeleteBorTxLookupEntry hash number) db))) = Some None
  ∧ value (run (ReadBorTxLookupEntry otherTxHash)
             (world (run (DeleteBorTxLookupEntryByTxHash otherTxHash) db)))
    = Some None.
Proof.
  intros txHash put del. subst txHash put del.
  unfold WriteBorTxLookupEntry, DeleteBorTxLookupEntry,
    DeleteBorTxLookupEntryByTxHash, ReadBorTxLookupEntry.
  split_and!; run_db; try done.
  unfold kvDelete, kvPut. cbn. by rewrite delete_insert_eq.
Qed.
(** ** The byte form of the block number *)

Lemma to_N_byte_of_N (n : N) : Byte.to_N (byte_of_N n) = n mod 256.
Proof.
  unfold byte_of_N. destruct (Byte.of_N (n mod 256)) as [b |] eqn:E.
  - by apply Byte.to_of_N.
  - apply Byte.of_N_None_iff in E.
    pose proof (N.mod_upper_bound n 256). lia.
Qed.

Lemma SetBytes_stripLeadingZeros (b : bytes) :
  SetBytes (stripLeadingZeros b) = SetBytes b.
Proof.
  induction b as [| x b IH]; [done |].
  destruct x; try reflexivity. exact IH.
Qed.

Lemma SetBytes_bigEndian64 (n : N) : SetBytes (bigEndian64 n) = n mod uint64_max.
Proof.
  unfold SetBytes, bigEndian64, byteAt, uint64_max. cbn [map fold_left].
  rewrite !to_N_byte_of_N, !N.shiftr_div_pow2.
  assert (Hstep : ∀ a m, m ≠ 0 → a mod (256 * m) = a mod 256 + 256 * ((a / 256) mod m))
    by (intros a m Hm; by apply N.Div0.mod_mul_r).
  change (2 ^ 64) with (256 * (256 * (256 * (256 * (256 * (256 * (256 * 256))))))).
  rewrite !Hstep by done.
  change (2 ^ (8 * 0)) with 1. rewrite N.div_1_r.
  change (2 ^ (8 * 1)) with 256.
  change (2 ^ (8 * 2)) with (256 * 256).
  change (2 ^ (8 * 3)) with (256 * 256 * 256).
  change (2 ^ (8 * 4)) with (256 * 256 * 256 * 256).
  change (2 ^ (8 * 5)) with (256 * 256 * 256 * 256 * 256).
  change (2 ^ (8 * 6)) with (256 * 256 * 256 * 256 * 256 * 256).
  change (2 ^ (8 * 7)) with (256 * 256 * 256 * 256 * 256 * 256 * 256).
  rewrite <- !N.Div0.div_div. lia.
Qed.

(** A positive block number has a non-empty byte form, which reads back
    as the number. *)
Lemma SetUint64_Bytes_roundtrip (n : N) :
  0 < n → n < uint64_max →
  SetUint64_Bytes n ≠ [] ∧ Uint64 (SetBytes (SetUint64_Bytes n)) = n.
Proof.
  intros Hpos Hlt.
  assert (Hval : SetBytes (SetUint64_Bytes n) = n).
  { unfold SetUint64_Bytes.
    rewrite SetBytes_stripLeadingZeros, SetBytes_bigEndian64.
    by apply N.mod_small. }
  split.
  - intros E. rewrite E in Hval. unfold SetBytes in Hval. cbn in Hval. lia.
  - rewrite Hval. by apply N.mod_small.
Qed.

(** The reverse index gives back every positive block number. *)
Lemma WriteBorTxLookupEntry_read_positive (db : DB) (hash : Hash) (number : N) :
  0 < number → number < uint64_max →
  let txHash := getDerivedBorTxHash (borReceiptKey number hash) in
  value (run (ReadBorTxLookupEntry txHash)
           (world (run (WriteBorTxLookupEntry hash number) db)))
  = Some (Some number).
Proof.
  intros Hpos Hlt txHash. subst txHash.
  destruct (SetUint64_Bytes_roundtrip number Hpos Hlt) as [Hne Hback].
  unfold WriteBorTxLookupEntry, ReadBorTxLookupEntry. run_db.
  destruct (SetUint64_Bytes number) as [| x rest]; [done |].
  cbn [length Nat.eqb]. cbn. by rewrite Hback.
Qed.

(** [C1] Block number zero does not come back from the reverse index.
    [WriteBorTxLookupEntry] stores the byte form of the number, which for
    zero is the empty slice; [ReadBorTxLookupEntry] takes an empty value
    for a missing entry and returns nil, not zero. *)
Theorem WriteBorTxLookupEntry_read_zero (db : DB) (hash : Hash) :
  let txHash := getDerivedBorTxHash (borReceiptKey 0 hash) in
  let put := run (WriteBorTxLookupEntry hash 0) db in
  trace put = [Put (borTxLookupKey txHash) nil_bytes]
  ∧ value put = Some tt
  ∧ value (run (ReadBorTxLookupEntry txHash) (world put)) = Some None.
Proof.
  intros txHash put. subst txHash put.
  unfold WriteBorTxLookupEntry, ReadBorTxLookupEntry.
  split_and!; by run_db.
Qed.
(** ** The accessors on the in-memory database *)

Lemma run_WriteBorReceipt_DB (db : DB) (hash : Hash) (number : N)
    (borReceipt : Receipt) (encoded : bytes) :
  EncodeToBytes borReceipt = Ok encoded →
  run (WriteBorReceipt hash number borReceipt) db
  = Result [Put (borReceiptKey number hash) encoded]
           (kvPut (borReceiptKey number hash) encoded db) (Some tt).
Proof. intros Henc. unfold WriteBorReceipt. by rewrite Henc. Qed.

Lemma run_DeleteBorReceipt_DB (db : DB) (hash : Hash) (number : N) :
  run (DeleteBorReceipt hash number) db
  = Result [Delete (borReceiptKey number hash)]
           (kvDelete (borReceiptKey number hash) db) (Some tt).
Proof. reflexivity. Qed.

Lemma run_WriteBorTxLookupEntry_DB (db : DB) (hash : Hash) (number : N) :
  let key := borTxLookupKey (getDerivedBorTxHash (borReceiptKey number hash)) in
  run (WriteBorTxLookupEntry hash number) db
  = Result [Put key (SetUint64_Bytes number)]
           (kvPut key (SetUint64_Bytes number) db) (Some tt).
Proof. reflexivity. Qed.

Lemma run_DeleteBorTxLookupEntryByTxHash_DB (db : DB) (txHash : Hash) :
  run (DeleteBorTxLookupEntryByTxHash txHash) db
  = Result [Delete (borTxLookupKey txHash)]
           (kvDelete (borTxLookupKey txHash) db) (Some tt).
Proof. reflexivity. Qed.

Lemma run_DeleteBorTxLookupEntry_DB (db : DB) (hash : Hash) (number : N) :
  let key := borTxLookupKey (getDerivedBorTxHash (borReceiptKey number hash)) in
  run (DeleteBorTxLookupEntry hash number) db
  = Result [Delete key] (kvDelete key db) (Some tt).
Proof. reflexivity. Qed.

Lemma run_ReadBorTxLookupEntry_DB (db : DB) (txHash : Hash) :
  run (ReadBorTxLookupEntry txHash) db
  = let data := (kvGet (borTxLookupKey txHash) db).1 in
    Result [Get (borTxLookupKey txHash)] db
      (Some (if Nat.eqb (length data) 0 then None
             else Some (Uint64 (SetBytes data)))).
Proof.
  unfold ReadBorTxLookupEntry. generalize (borTxLookupKey txHash). intros key.
  cbn. destruct (kvGet key db) as [data err]. cbn. by destruct data.
Qed.

(** The tiered reader on a database state. *)
Lemma run_ReadBorReceiptRLP_DB (db : DB) (hash : Hash) (number : N) :
  let ancient := (ancientGet freezerBorReceiptTable number db).1 in
  let h := (ancientGet freezerHashTable number db).1 in
  let stored := (kvGet (borReceiptKey number hash) db).1 in
  world (run (ReadBorReceiptRLP hash number) db) = db
  ∧ value (run (ReadBorReceiptRLP hash number) db)
    = Some (if nonEmpty ancient && bool_decide (BytesToHash h = hash) then ancient
            else if nonEmpty stored then stored
            else nil_bytes).
Proof.
  intros ancient h stored. subst ancient h stored.
  unfold ReadBorReceiptRLP. cbn.
  destruct (ancientGet freezerBorReceiptTable number db) as [ancient e1] eqn:Ha.
  destruct (ancientGet freezerHashTable number db) as [h e2] eqn:Hh.
  destruct (kvGet (borReceiptKey number hash) db) as [stored e3] eqn:Hs.
  cbn.
  destruct (nonEmpty ancient) eqn:Hlen; cbn; rewrite ?Hh; cbn.
  - destruct (bool_decide (BytesToHash h = hash)) eqn:Hcmp; cbn; [done |].
    rewrite Hs. cbn. destruct (nonEmpty stored); cbn; [done |].
    rewrite Ha. cbn. rewrite Hlen. cbn. rewrite Hh. cbn. by rewrite Hcmp.
  - rewrite Hs. cbn. destruct (nonEmpty stored); cbn; [done |].
    rewrite Ha. cbn. by rewrite Hlen.
Qed.

(** The calls of the tiered reader on any database. *)
Lemma run_ReadBorReceiptRLP_calls {W} `{!Reader W, !KeyValueWriter W}
    (hash : Hash) (number : N) (w : W) :
  let r := run (ReadBorReceiptRLP hash number) w in
  is_Some (value r)
  ∧ (2 ≤ length (trace r) ≤ 5)%nat
  ∧ head (trace r) = Some (Ancient freezerBorReceiptTable number)
  ∧ Forall (λ c, c = Ancient freezerBorReceiptTable number
                 ∨ c = Ancient freezerHashTable number
                 ∨ c = Get (borReceiptKey number hash)) (trace r).
Proof.
  unfold ReadBorReceiptRLP. cbn.
  repeat step_run;
    (split_and!;
     [by eexists | lia | lia | done
     | repeat (apply Forall_cons; split; [auto |]); done]).
Qed.

(** ** Further properties of the tiered reader *)

(** On a database state the three probes amount to a choice between two
    tiers: the ancient bytes when there are some and the ancient hash
    makes the queried hash, else the non-empty value at the record key,
    else nil. The ancient record wins over the key-value store, and the
    read leaves the state as it is. *)
Theorem ReadBorReceiptRLP_tiers (db : DB) (hash : Hash) (number : N) :
  let ancient := (ancientGet freezerBorReceiptTable number db).1 in
  let h := (ancientGet freezerHashTable number db).1 in
  let stored := (kvGet (borReceiptKey number hash) db).1 in
  world (run (ReadBorReceiptRLP hash number) db) = db
  ∧ value (run (ReadBorReceiptRLP hash number) db)
    = Some (if nonEmpty ancient && bool_decide (BytesToHash h = hash) then ancient
            else if nonEmpty stored then stored
            else nil_bytes).
Proof. exact (run_ReadBorReceiptRLP_DB db hash number). Qed.

(** On every database [ReadBorReceiptRLP] returns: it never ends the
    process. It makes between two and five calls, the first an ancient read
    of the record table, each an ancient read of the record table or of the
    hash table at [number] or a [Get] at the record key: it never writes,
    deletes or logs. *)
Theorem ReadBorReceiptRLP_calls {W} `{!Reader W, !KeyValueWriter W}
    (hash : Hash) (number : N) (w : W) :
  let r := run (ReadBorReceiptRLP hash number) w in
  is_Some (value r)
  ∧ (2 ≤ length (trace r) ≤ 5)%nat
  ∧ head (trace r) = Some (Ancient freezerBorReceiptTable number)
  ∧ Forall (λ c, c = Ancient freezerBorReceiptTable number
                 ∨ c = Ancient freezerHashTable number
                 ∨ c = Get (borReceiptKey number hash)) (trace r).
Proof. exact (run_ReadBorReceiptRLP_calls hash number w). Qed.

(** ** Further properties of the decoded and of the enriched read *)

(** When the bytes of the record are absent, [ReadRawBorReceipt] returns
    nil after the calls of [ReadBorReceiptRLP] and nothing else: it does
    not try to decode and logs no error. *)
Theorem ReadRawBorReceipt_absent {W} `{!Reader W, !KeyValueWriter W}
    (hash : Hash) (number : N) (w : W) :
  let fetched := run (ReadBorReceiptRLP hash number) w in
  value fetched = Some nil_bytes →
  run (ReadRawBorReceipt hash number) w
  = Result (trace fetched) (world fetched) (Some None).
Proof.
  intros fetched Hnil. subst fetched. unfold ReadRawBorReceipt.
  run_seq Hnil. cbn. by rewrite app_nil_r.
Qed.

(** Whenever [ReadRawBorReceipt] returns nil, for absent bytes as for
    bytes that do not decode, [ReadBorReceipt] returns nil having made the
    same calls and no other: the receipts and the body of the block are not
    read. *)
Theorem ReadBorReceipt_without_raw {W} `{!Reader W, !KeyValueWriter W}
    (hash : Hash) (number : N) (w : W) :
  value (run (ReadRawBorReceipt hash number) w) = Some None →
  run (ReadBorReceipt hash number) w = run (ReadRawBorReceipt hash number) w.
Proof.
  intros Hraw. unfold ReadBorReceipt. run_seq Hraw. cbn.
  rewrite app_nil_r. rewrite <- Hraw. symmetry. apply result_eta.
Qed.

(** A record that was written is read back decoded. When the record
    encodes to non-empty bytes which decode, as a single record, to
    [decoded], and the ancient store holds no record for the block under
    the same hash, [ReadRawBorReceipt] after [WriteBorReceipt] returns
    [decoded], without logging. *)
Theorem WriteBorReceipt_ReadRawBorReceipt
    (db : DB) (hash : Hash) (number : N) (borReceipt decoded : Receipt)
    (encoded : bytes) :
  EncodeToBytes borReceipt = Ok encoded →
  encoded ≠ [] →
  DecodeBytes_receipt encoded = Ok decoded →
  nonEmpty (ancientGet freezerBorReceiptTable number db).1
  && bool_decide (BytesToHash (ancientGet freezerHashTable number db).1 = hash)
  = false →
  let written := world (run (WriteBorReceipt hash number borReceipt) db) in
  value (run (ReadRawBorReceipt hash number) written) = Some (Some decoded)
  ∧ Forall (λ c, ∀ msg ctx, c ≠ LogError msg ctx)
      (trace (run (ReadRawBorReceipt hash number) written)).
Proof.
  intros Henc Hne Hdec Hanc written. subst written.
  rewrite (run_WriteBorReceipt_DB _ _ _ _ _ Henc). cbn [world].
  set (db' := kvPut (borReceiptKey number hash) encoded db).
  destruct (run_ReadBorReceiptRLP_DB db' hash number) as [Hworld Hvalue].
  destruct (run_ReadBorReceiptRLP_calls hash number db') as (_ & _ & _ & Hcalls).
  subst db'.
  rewrite !ancientGet_kvPut, kvGet_kvPut, Hanc in Hvalue. cbn [fst] in Hvalue.
  assert (Hlen : nonEmpty encoded = true) by (by destruct encoded).
  rewrite Hlen in Hvalue.
  unfold ReadRawBorReceipt. rewrite run_bind. unfold andThen. rewrite Hvalue.
  rewrite Hworld. destruct encoded as [| x rest]; [done |]. cbn [length Nat.eqb].
  unfold decodeBorReceipt. rewrite Hdec. cbn [run trace world value].
  rewrite app_nil_r. split; [done |].
  eapply Forall_impl; [exact Hcalls |].
  intros c [-> | [-> | ->]] msg ctx; discriminate.
Qed.

(** ** Failures of the writers *)

(** [WriteBorReceipt] on every database. A record that does not encode
    ends the process before any database call; a failed [Put] ends the
    process after it; otherwise the function returns after the one [Put]
    of the encoded bytes at the record key. *)
Theorem WriteBorReceipt_outcomes {W} `{!Reader W, !KeyValueWriter W}
    (hash : Hash) (number : N) (borReceipt : Receipt) (w : W) :
  match EncodeToBytes borReceipt with
  | Err e =>
      run (WriteBorReceipt hash number borReceipt) w
      = Result [LogCrit "Failed to encode bor receipt" [("err", LErr e)]] w None
  | Ok encoded =>
      let key := borReceiptKey number hash in
      let '(err, w') := db_Put key encoded w in
      run (WriteBorReceipt hash number borReceipt) w
      = match err with
        | Some e =>
            Result [Put key encoded;
                    LogCrit "Failed to store bor receipt" [("err", LErr e)]]
                   w' None
        | None => Result [Put key encoded] w' (Some tt)
        end
  end.
Proof.
  unfold WriteBorReceipt. destruct (EncodeToBytes borReceipt) as [encoded | e];
    [| done].
  cbn. destruct (db_Put (borReceiptKey number hash) encoded w) as [[e |] w']; done.
Qed.

(** On a database that refuses writes none of the four other writers
    returns: a failed [Delete] or [Put] ends the process in [log.Crit],
    after the one call, with the database as the call left it. *)
Theorem writers_fatal_on_error {W} `{!Reader W, !KeyValueWriter W}
    (hash : Hash) (number : N) (w : W) (e : error) :
  let txHash := getDerivedBorTxHash (borReceiptKey number hash) in
  ((db_Delete (borReceiptKey number hash) w).1 = Some e →
   run (DeleteBorReceipt hash number) w
   = Result [Delete (borReceiptKey number hash);
             LogCrit "Failed to delete bor receipt" [("err", LErr e)]]
            (db_Delete (borReceiptKey number hash) w).2 None)
  ∧ ((db_Put (borTxLookupKey txHash) (SetUint64_Bytes number) w).1 = Some e →
     run (WriteBorTxLookupEntry hash number) w
     = Result [Put (borTxLookupKey txHash) (SetUint64_Bytes number);
               LogCrit "Failed to store bor transaction lookup entry"
                 [("err", LErr e)]]
              (db_Put (borTxLookupKey txHash) (SetUint64_Bytes number) w).2 None)
  ∧ ((db_Delete (borTxLookupKey txHash) w).1 = Some e →
     run (DeleteBorTxLookupEntry hash number) w
     = Result [Delete (borTxLookupKey txHash);
               LogCrit "Failed to delete bor transaction lookup entry"
                 [("err", LErr e)]]
              (db_Delete (borTxLookupKey txHash) w).2 None
     ∧ run (DeleteBorTxLookupEntryByTxHash txHash) w
       = run (DeleteBorTxLookupEntry hash number) w).
Proof.
  intros txHash. subst txHash.
  unfold DeleteBorReceipt, WriteBorTxLookupEntry, DeleteBorTxLookupEntry,
    DeleteBorTxLookupEntryByTxHash.
  split_and!; cbn.
  - destruct (db_Delete _ w) as [err w']. cbn. by intros ->.
  - destruct (db_Put _ _ w) as [err w']. cbn. by intros ->.
  - destruct (db_Delete _ w) as [err w']. cbn. by intros ->.
Qed.

(** ** Existence against the tiered reader *)

(** After [WriteBorReceipt] has returned, [HasBorReceipt] returns [true],
    whatever the freezer holds. After [DeleteBorReceipt] it returns [true]
    exactly when the ancient hash table holds bytes for the block that make
    the queried hash. *)
Theorem HasBorReceipt_after_write_delete
    (db : DB) (hash : Hash) (number : N) (borReceipt : Receipt) (encoded : bytes) :
  EncodeToBytes borReceipt = Ok encoded →
  value (run (HasBorReceipt hash number)
           (world (run (WriteBorReceipt hash number borReceipt) db)))
  = Some true
  ∧ ∃ b : bool,
      value (run (HasBorReceipt hash number)
               (world (run (DeleteBorReceipt hash number) db)))
      = Some b
      ∧ (b = true ↔ ∃ h, freezer db !! (freezerHashTable, number) = Some h
                         ∧ BytesToHash h = hash).
Proof.
  intros Henc. rewrite (run_WriteBorReceipt_DB _ _ _ _ _ Henc).
  rewrite run_DeleteBorReceipt_DB. cbn [world]. split.
  - unfold HasBorReceipt. cbn. rewrite ancientGet_kvPut.
    destruct (ancientGet freezerHashTable number db) as [h err]. cbn.
    destruct (negb (failed err) && bool_decide (BytesToHash h = hash)); [done |].
    cbn. unfold kvHas, kvPut. cbn. rewrite lookup_insert_eq.
    by rewrite bool_decide_eq_true_2.
  - unfold HasBorReceipt. cbn. rewrite ancientGet_kvDelete. unfold ancientGet.
    destruct (freezer db !! (freezerHashTable, number)) as [h |] eqn:Hh; cbn.
    + destruct (decide (BytesToHash h = hash)) as [Heq | Hne].
      * rewrite bool_decide_eq_true_2 by done. cbn. exists true.
        split; [done |]. split; [| done]. intros _. by exists h.
      * rewrite bool_decide_eq_false_2 by done. cbn.
        unfold kvHas, kvDelete. cbn. rewrite lookup_delete_eq.
        rewrite bool_decide_eq_false_2 by (by intros [? ?]). cbn.
        exists false. split; [done |]. split; [done |].
        intros (h' & Hh' & Heq). congruence.
    + unfold kvHas, kvDelete. cbn. rewrite lookup_delete_eq.
      rewrite bool_decide_eq_false_2 by (by intros [? ?]). cbn.
      exists false. split; [done |]. split; [done |].
      by intros (h' & Hh' & Heq).
Qed.

(** [HasBorReceipt] on every database. It reads the ancient hash table
    once and, when that read succeeds with bytes that make the queried
    hash, returns [true] without consulting the key-value store. Otherwise
    it asks the key-value store once for the record key and returns [true]
    only when the store says yes without an error. It never logs, writes or
    ends the process. *)
Theorem HasBorReceipt_calls {W} `{!Reader W, !KeyValueWriter W}
    (hash : Hash) (number : N) (w : W) :
  let '((h, err), w1) := db_Ancient freezerHashTable number w in
  let '((has, err'), w2) := db_Has (borReceiptKey number hash) w1 in
  run (HasBorReceipt hash number) w
  = if negb (failed err) && bool_decide (BytesToHash h = hash)
    then Result [Ancient freezerHashTable number] w1 (Some true)
    else Result [Ancient freezerHashTable number; Has (borReceiptKey number hash)]
                w2 (Some (has && negb (failed err'))).
Proof.
  unfold HasBorReceipt. cbn.
  destruct (db_Ancient freezerHashTable number w) as [[h err] w1].
  destruct (db_Has (borReceiptKey number hash) w1) as [[has err'] w2] eqn:Hhas.
  cbn. destruct (negb (failed err) && bool_decide (BytesToHash h = hash)); [done |].
  cbn. rewrite Hhas. cbn. by destruct has, err'.
Qed.

(** What [ReadBorReceiptRLP] finds, [HasBorReceipt] confirms, as long as
    the ancient hash table has an entry for the block or the queried hash
    is not the hash of the nil slice: then non-empty bytes from
    [ReadBorReceiptRLP] imply [true] from [HasBorReceipt]. *)
Theorem ReadBorReceiptRLP_found_HasBorReceipt
    (db : DB) (hash : Hash) (number : N) (data : bytes) :
  (freezer db !! (freezerHashTable, number) = None → BytesToHash nil_bytes ≠ hash) →
  value (run (ReadBorReceiptRLP hash number) db) = Some data →
  data ≠ [] →
  value (run (HasBorReceipt hash number) db) = Some true.
Proof.
  intros Hzero Hread Hne.
  destruct (run_ReadBorReceiptRLP_DB db hash number) as [_ Hvalue].
  rewrite Hvalue in Hread. clear Hvalue.
  unfold HasBorReceipt. cbn. unfold ancientGet in *.
  destruct (freezer db !! (freezerHashTable, number)) as [h |] eqn:Hh; cbn in *.
  - destruct (bool_decide (BytesToHash h = hash)) eqn:Hcmp; cbn; [done |].
    rewrite andb_false_r in Hread.
    unfold kvHas. unfold kvGet in Hread.
    destruct (kv db !! borReceiptKey number hash) as [stored |]; cbn in *.
    + first [done | by rewrite bool_decide_eq_true_2].
    + rewrite nonEmpty_nil in Hread. by simplify_eq.
  - rewrite (bool_decide_eq_false_2 (BytesToHash nil_bytes = hash)) in Hread
      by (by apply Hzero).
    rewrite andb_false_r in Hread.
    unfold kvHas. unfold kvGet in Hread.
    destruct (kv db !! borReceiptKey number hash) as [stored |]; cbn in *.
    + first [done | by rewrite bool_decide_eq_true_2].
    + rewrite nonEmpty_nil in Hread. by simplify_eq.
Qed.

(** The error of the ancient hash read counts for [HasBorReceipt] and not
    for [ReadBorReceiptRLP]. On a freezer that holds non-empty record bytes
    for a block and no hash, asked for the hash of the nil slice,
    [ReadBorReceiptRLP] returns the record bytes while [HasBorReceipt]
    returns [false]. *)
Theorem ReadBorReceiptRLP_ignores_hash_error (number : N) (data : bytes) :
  data ≠ [] →
  let db := recordOnlyDB number data in
  let hash := BytesToHash nil_bytes in
  value (run (ReadBorReceiptRLP hash number) db) = Some data
  ∧ value (run (HasBorReceipt hash number) db) = Some false.
Proof.
  intros Hne db hash. subst db hash.
  assert (Hrec : ancientGet freezerBorReceiptTable number (recordOnlyDB number data)
                 = (data, None)).
  { unfold ancientGet, recordOnlyDB. cbn. by rewrite lookup_singleton_eq. }
  assert (Hhash : ancientGet freezerHashTable number (recordOnlyDB number data)
                  = (nil_bytes, Some errOutOfBounds)).
  { unfold ancientGet, recordOnlyDB. cbn. by rewrite lookup_singleton_ne. }
  split.
  - destruct (run_ReadBorReceiptRLP_DB (recordOnlyDB number data)
                (BytesToHash nil_bytes) number) as [_ Hvalue].
    rewrite Hvalue, Hrec, Hhash. cbn [fst].
    rewrite bool_decide_eq_true_2 by done.
    by destruct data.
  - unfold HasBorReceipt. cbn. rewrite Hhash. cbn.
    unfold kvHas, recordOnlyDB. cbn. rewrite lookup_empty.
    by rewrite bool_decide_eq_false_2 by (by intros [? ?]).
Qed.

(** ** The two transaction lookups *)

(** [ReadBorTransactionWithBlockHash] on every database. Without an index
    entry it returns the absent result after the index read alone. With an
    entry for block [n] it reads the body of block [n] under the given
    block hash: without a body it logs and returns the absent result; with
    a body it returns the bor transaction, the given block hash, [n] and
    the number of transactions of the body. The block hash is taken as
    given, the zero hash included. *)
Theorem ReadBorTransactionWithBlockHash_outcomes {W} `{!Reader W, !KeyValueWriter W}
    (txHash blockHash : Hash) (w : W) :
  let r0 := run (ReadBorTxLookupEntry txHash) w in
  (value r0 = Some None →
   run (ReadBorTransactionWithBlockHash txHash blockHash) w
   = Result (trace r0) (world r0) (Some noTransaction))
  ∧ (∀ n, value r0 = Some (Some n) →
       let r1 := run (ReadBody blockHash n) (world r0) in
       (value r1 = Some None →
        run (ReadBorTransactionWithBlockHash txHash blockHash) w
        = Result (trace r0 ++ trace r1
                    ++ [LogError "Transaction referenced missing"
                          (ctxBlock n blockHash)])
                 (world r1) (Some noTransaction))
       ∧ (∀ body, value r1 = Some (Some body) →
            run (ReadBorTransactionWithBlockHash txHash blockHash) w
            = Result (trace r0 ++ trace r1) (world r1)
                     (Some (Some NewBorTransaction, blockHash, n,
                            N.of_nat (length (Transactions body)))))).
Proof.
  intros r0. subst r0. split.
  - intros H0. unfold ReadBorTransactionWithBlockHash. run_seq H0. cbn.
    by rewrite app_nil_r.
  - intros n H0 r1. subst r1. split.
    + intros H1. unfold ReadBorTransactionWithBlockHash. run_seq H0. by run_seq H1.
    + intros body H1. unfold ReadBorTransactionWithBlockHash. run_seq H0.
      run_seq H1. cbn. by rewrite app_nil_r.
Qed.

(** [ReadBorTransaction] when everything is there: with an index entry for
    block [n], a canonical hash of block [n] that is not the zero hash and a
    body under them, it returns the bor transaction, the canonical hash, [n]
    and the number of transactions of the body, after the index read, the
    read of the canonical hash and the read of the body, in this order,
    without logging. *)
Theorem ReadBorTransaction_found {W} `{!Reader W, !KeyValueWriter W}
    (hash blockHash : Hash) (n : N) (body : Body) (w : W) :
  let r0 := run (ReadBorTxLookupEntry hash) w in
  let r1 := run (ReadCanonicalHash n) (world r0) in
  let r2 := run (ReadBody blockHash n) (world r1) in
  value r0 = Some (Some n) →
  value r1 = Some blockHash →
  blockHash ≠ zeroHash →
  value r2 = Some (Some body) →
  run (ReadBorTransaction hash) w
  = Result (trace r0 ++ trace r1 ++ trace r2) (world r2)
           (Some (Some NewBorTransaction, blockHash, n,
                  N.of_nat (length (Transactions body)))).
Proof.
  intros r0 r1 r2 H0 H1 Hnz H2. subst r0 r1 r2.
  unfold ReadBorTransaction. run_seq H0. run_seq H1.
  rewrite bool_decide_eq_false_2 by done. run_seq H2. cbn.
  by rewrite app_nil_r.
Qed.

(** ** The stored form of the block number *)

Lemma SetBytes_fold (b : bytes) (acc : N) :
  fold_left (λ a x, a * 256 + Byte.to_N x) b acc
  = acc * 256 ^ N.of_nat (length b) + SetBytes b.
Proof.
  unfold SetBytes. revert acc. induction b as [| x b IH]; intros acc.
  - cbn. lia.
  - cbn [fold_left length]. rewrite IH, (IH (0 * 256 + Byte.to_N x)).
    rewrite Nat2N.inj_succ, N.pow_succ_r'. lia.
Qed.

Lemma SetBytes_app (a b : bytes) :
  SetBytes (a ++ b) = SetBytes a * 256 ^ N.of_nat (length b) + SetBytes b.
Proof.
  unfold SetBytes at 1. rewrite fold_left_app. fold (SetBytes a).
  apply SetBytes_fold.
Qed.

Lemma SetBytes_bound (b : bytes) : SetBytes b < 256 ^ N.of_nat (length b).
Proof.
  induction b as [| x b IH] using rev_ind.
  - unfold SetBytes. cbn. lia.
  - rewrite SetBytes_app, length_app. cbn [length].
    replace (N.of_nat (length b + 1)) with (N.succ (N.of_nat (length b))) by lia.
    rewrite N.pow_succ_r'. change (N.of_nat 1) with 1. rewrite N.pow_1_r.
    unfold SetBytes at 2. cbn [fold_left].
    pose proof (Byte.to_N_bounded x). lia.
Qed.

Lemma stripLeadingZeros_length (b : bytes) :
  (length (stripLeadingZeros b) ≤ length b)%nat.
Proof.
  induction b as [| x b IH]; [done |].
  destruct x; cbn [stripLeadingZeros length]; lia.
Qed.

Lemma stripLeadingZeros_head (b : bytes) :
  head (stripLeadingZeros b) ≠ Some Byte.x00.
Proof.
  induction b as [| x b IH]; [done |].
  destruct x; cbn [stripLeadingZeros head]; first [exact IH | discriminate].
Qed.

Lemma SetBytes_SetUint64_Bytes (n : N) :
  SetBytes (SetUint64_Bytes n) = n mod uint64_max.
Proof.
  unfold SetUint64_Bytes. by rewrite SetBytes_stripLeadingZeros, SetBytes_bigEndian64.
Qed.

(** What [WriteBorTxLookupEntry] stores for a block number below [2^64] is
    the shortest big-endian form of the number: at most eight bytes, no
    leading zero byte, the value of the number, and no byte at all exactly
    for the number zero. Two different block numbers are stored as
    different values. *)
Theorem WriteBorTxLookupEntry_stored_form (db : DB) (hash : Hash) (number : N) :
  number < uint64_max →
  ∃ v : bytes,
    trace (run (WriteBorTxLookupEntry hash number) db)
    = [Put (borTxLookupKey (getDerivedBorTxHash (borReceiptKey number hash))) v]
    ∧ (length v ≤ 8)%nat
    ∧ head v ≠ Some Byte.x00
    ∧ SetBytes v = number
    ∧ (v = [] ↔ number = 0)
    ∧ ∀ other, other < uint64_max → SetUint64_Bytes other = v → other = number.
Proof.
  intros Hlt. exists (SetUint64_Bytes number).
  assert (Hval : SetBytes (SetUint64_Bytes number) = number)
    by (rewrite SetBytes_SetUint64_Bytes; by apply N.mod_small).
  split_and!.
  - by rewrite run_WriteBorTxLookupEntry_DB.
  - unfold SetUint64_Bytes. etrans; [apply stripLeadingZeros_length |]. done.
  - apply stripLeadingZeros_head.
  - done.
  - split.
    + intros E. rewrite E in Hval. by rewrite <- Hval.
    + by intros ->.
  - intros other Hother E. rewrite <- Hval, <- E, SetBytes_SetUint64_Bytes.
    symmetry. by apply N.mod_small.
Qed.

(** [ReadBorTxLookupEntry] on a database state. A missing entry and an
    entry with the empty value both give nil. Of a longer value only the
    last eight bytes count: the number returned is their big-endian value,
    below [2^64]. *)
Theorem ReadBorTxLookupEntry_stored (db : DB) (txHash : Hash) :
  (kv db !! borTxLookupKey txHash = None
   ∨ kv db !! borTxLookupKey txHash = Some nil_bytes →
   value (run (ReadBorTxLookupEntry txHash) db) = Some None)
  ∧ (∀ front last8,
       kv db !! borTxLookupKey txHash = Some (front ++ last8) →
       length last8 = 8%nat →
       value (run (ReadBorTxLookupEntry txHash) db) = Some (Some (SetBytes last8))
       ∧ SetBytes last8 < uint64_max).
Proof.
  split.
  - intros [E | E]; rewrite run_ReadBorTxLookupEntry_DB; unfold kvGet;
      by rewrite E.
  - intros front last8 E Hlen.
    assert (Hb : SetBytes last8 < uint64_max).
    { pose proof (SetBytes_bound last8) as Hb. by rewrite Hlen in Hb. }
    split; [| done].
    rewrite run_ReadBorTxLookupEntry_DB. unfold kvGet. rewrite E. cbn [fst value].
    destruct (front ++ last8) as [| x rest] eqn:Happ.
    { apply app_eq_nil in Happ as [_ ->]. done. }
    cbn [length Nat.eqb]. rewrite <- Happ. do 2 f_equal.
    unfold Uint64. rewrite SetBytes_app, Hlen.
    change (256 ^ N.of_nat 8) with uint64_max.
    rewrite N.add_comm, N.Div0.mod_add. by apply N.mod_small.
Qed.

(** ** Keys and frames *)

Lemma kvGet_kvPut_ne (key key' v : bytes) (db : DB) :
  key ≠ key' → kvGet key' (kvPut key v db) = kvGet key' db.
Proof. intros Hne. unfold kvGet, kvPut. cbn. by rewrite lookup_insert_ne. Qed.

Lemma kvGet_kvDelete_ne (key key' : bytes) (db : DB) :
  key ≠ key' → kvGet key' (kvDelete key db) = kvGet key' db.
Proof. intros Hne. unfold kvGet, kvDelete. cbn. by rewrite lookup_delete_ne. Qed.

Lemma kvHas_kvPut_ne (key key' v : bytes) (db : DB) :
  key ≠ key' → kvHas key' (kvPut key v db) = kvHas key' db.
Proof. intros Hne. unfold kvHas, kvPut. cbn. by rewrite lookup_insert_ne. Qed.

Lemma kvHas_kvDelete_ne (key key' : bytes) (db : DB) :
  key ≠ key' → kvHas key' (kvDelete key db) = kvHas key' db.
Proof. intros Hne. unfold kvHas, kvDelete. cbn. by rewrite lookup_delete_ne. Qed.

Lemma run_HasBorReceipt_DB (db : DB) (hash : Hash) (number : N) :
  value (run (HasBorReceipt hash number) db)
  = Some (negb (failed (ancientGet freezerHashTable number db).2)
          && bool_decide (BytesToHash (ancientGet freezerHashTable number db).1 = hash)
          || (kvHas (borReceiptKey number hash) db).1).
Proof.
  unfold HasBorReceipt. cbn.
  destruct (ancientGet freezerHashTable number db) as [h err]. cbn.
  destruct (negb (failed err) && bool_decide (BytesToHash h = hash)); [done |].
  cbn. unfold kvHas. cbn.
  by destruct (bool_decide (is_Some (kv db !! borReceiptKey number hash))).
Qed.

(** The three readers see of a key-value store only their own key. *)
Lemma readers_frame (db db' : DB) (hash : Hash) (number : N) :
  freezer db' = freezer db →
  kv db' !! borReceiptKey number hash = kv db !! borReceiptKey number hash →
  value (run (ReadBorReceiptRLP hash number) db')
  = value (run (ReadBorReceiptRLP hash number) db)
  ∧ value (run (HasBorReceipt hash number) db')
    = value (run (HasBorReceipt hash number) db).
Proof.
  intros Hf Hk.
  destruct (run_ReadBorReceiptRLP_DB db hash number) as [_ ->].
  destruct (run_ReadBorReceiptRLP_DB db' hash number) as [_ ->].
  rewrite !run_HasBorReceipt_DB. unfold ancientGet, kvGet, kvHas.
  by rewrite Hf, Hk.
Qed.

Lemma lookup_frame (db db' : DB) (txHash : Hash) :
  kv db' !! borTxLookupKey txHash = kv db !! borTxLookupKey txHash →
  value (run (ReadBorTxLookupEntry txHash) db')
  = value (run (ReadBorTxLookupEntry txHash) db).
Proof.
  intros Hk. rewrite !run_ReadBorTxLookupEntry_DB. unfold kvGet. by rewrite Hk.
Qed.

(** The lookup keys of two hashes are the same exactly when the bytes of
    the hashes are; every lookup key is the 20 bytes of
    "matic-bor-tx-lookup-" followed by the bytes of the hash. *)
Theorem borTxLookupKey_injective (a b : Hash) :
  (borTxLookupKey a = borTxLookupKey b ↔ HashBytes a = HashBytes b)
  ∧ take 20 (borTxLookupKey a) = bytes_of_string "matic-bor-tx-lookup-"
  ∧ drop 20 (borTxLookupKey a) = HashBytes a
  ∧ length (borTxLookupKey a) = (20 + length (HashBytes a))%nat.
Proof.
  unfold borTxLookupKey. split_and!; try done.
  split; [apply app_inv_head | by intros ->].
Qed.

(** Writing or deleting the index entry of one block leaves the entry of
    every hash with other bytes as it was. *)
Theorem index_entries_independent
    (db : DB) (hash : Hash) (number : N) (other : Hash) :
  HashBytes other ≠ HashBytes (getDerivedBorTxHash (borReceiptKey number hash)) →
  value (run (ReadBorTxLookupEntry other)
           (world (run (WriteBorTxLookupEntry hash number) db)))
  = value (run (ReadBorTxLookupEntry other) db)
  ∧ value (run (ReadBorTxLookupEntry other)
             (world (run (DeleteBorTxLookupEntry hash number) db)))
    = value (run (ReadBorTxLookupEntry other) db).
Proof.
  intros Hne.
  assert (Hkey : borTxLookupKey (getDerivedBorTxHash (borReceiptKey number hash))
                 ≠ borTxLookupKey other).
  { unfold borTxLookupKey. intros E. apply app_inv_head in E. congruence. }
  rewrite run_WriteBorTxLookupEntry_DB, run_DeleteBorTxLookupEntry_DB. cbn [world].
  split; apply lookup_frame; unfold kvPut, kvDelete; cbn [kv].
  - by rewrite lookup_insert_ne.
  - by rewrite lookup_delete_ne.
Qed.

(** The record of a block and an index entry under another key do not
    touch each other: writing or deleting the record leaves the index entry
    as it was, and writing or deleting the index entry leaves what
    [ReadBorReceiptRLP] and [HasBorReceipt] give for the record as it was. *)
Theorem record_and_index_independent
    (db : DB) (hash hash' : Hash) (number number' : N)
    (borReceipt : Receipt) (encoded : bytes) :
  let txHash := getDerivedBorTxHash (borReceiptKey number hash) in
  borTxLookupKey txHash ≠ borReceiptKey number' hash' →
  EncodeToBytes borReceipt = Ok encoded →
  let afterWrite := world (run (WriteBorReceipt hash' number' borReceipt) db) in
  let afterDelete := world (run (DeleteBorReceipt hash' number') db) in
  let afterPut := world (run (WriteBorTxLookupEntry hash number) db) in
  let afterRemove := world (run (DeleteBorTxLookupEntry hash number) db) in
  value (run (ReadBorTxLookupEntry txHash) afterWrite)
  = value (run (ReadBorTxLookupEntry txHash) db)
  ∧ value (run (ReadBorTxLookupEntry txHash) afterDelete)
    = value (run (ReadBorTxLookupEntry txHash) db)
  ∧ value (run (ReadBorReceiptRLP hash' number') afterPut)
    = value (run (ReadBorReceiptRLP hash' number') db)
  ∧ value (run (ReadBorReceiptRLP hash' number') afterRemove)
    = value (run (ReadBorReceiptRLP hash' number') db)
  ∧ value (run (HasBorReceipt hash' number') afterPut)
    = value (run (HasBorReceipt hash' number') db)
  ∧ value (run (HasBorReceipt hash' number') afterRemove)
    = value (run (HasBorReceipt hash' number') db).
Proof.
  intros txHash Hkey Henc afterWrite afterDelete afterPut afterRemove.
  subst afterWrite afterDelete afterPut afterRemove.
  rewrite (run_WriteBorReceipt_DB _ _ _ _ _ Henc), run_DeleteBorReceipt_DB,
    run_WriteBorTxLookupEntry_DB, run_DeleteBorTxLookupEntry_DB.
  cbn [world]. fold txHash.
  assert (Hput : ∀ v, kv (kvPut (borTxLookupKey txHash) v db)
                        !! borReceiptKey number' hash'
                      = kv db !! borReceiptKey number' hash')
    by (intros v; unfold kvPut; cbn [kv]; by rewrite lookup_insert_ne).
  assert (Hdel : kv (kvDelete (borTxLookupKey txHash) db)
                   !! borReceiptKey number' hash'
                 = kv db !! borReceiptKey number' hash')
    by (unfold kvDelete; cbn [kv]; by rewrite lookup_delete_ne).
  split_and!.
  - apply lookup_frame. unfold kvPut. cbn [kv]. by rewrite lookup_insert_ne.
  - apply lookup_frame. unfold kvDelete. cbn [kv]. by rewrite lookup_delete_ne.
  - by apply readers_frame.
  - by apply readers_frame.
  - by apply readers_frame.
  - by apply readers_frame.
Qed.

(** Writing or deleting the record of one block leaves what
    [ReadBorReceiptRLP] and [HasBorReceipt] give for a record under another
    key as it was. *)
Theorem records_independent
    (db : DB) (hash hash' : Hash) (number number' : N)
    (borReceipt : Receipt) (encoded : bytes) :
  borReceiptKey number' hash' ≠ borReceiptKey number hash →
  EncodeToBytes borReceipt = Ok encoded →
  let afterWrite := world (run (WriteBorReceipt hash' number' borReceipt) db) in
  let afterDelete := world (run (DeleteBorReceipt hash' number') db) in
  value (run (ReadBorReceiptRLP hash number) afterWrite)
  = value (run (ReadBorReceiptRLP hash number) db)
  ∧ value (run (ReadBorReceiptRLP hash number) afterDelete)
    = value (run (ReadBorReceiptRLP hash number) db)
  ∧ value (run (HasBorReceipt hash number) afterWrite)
    = value (run (HasBorReceipt hash number) db)
  ∧ value (run (HasBorReceipt hash number) afterDelete)
    = value (run (HasBorReceipt hash number) db).
Proof.
  intros Hkey Henc afterWrite afterDelete. subst afterWrite afterDelete.
  rewrite (run_WriteBorReceipt_DB _ _ _ _ _ Henc), run_DeleteBorReceipt_DB.
  cbn [world].
  assert (Hput : kv (kvPut (borReceiptKey number' hash') encoded db)
                   !! borReceiptKey number hash
                 = kv db !! borReceiptKey number hash)
    by (unfold kvPut; cbn [kv]; by rewrite lookup_insert_ne).
  assert (Hdel : kv (kvDelete (borReceiptKey number' hash') db)
                   !! borReceiptKey number hash
                 = kv db !! borReceiptKey number hash)
    by (unfold kvDelete; cbn [kv]; by rewrite lookup_delete_ne).
  split_and!; by apply readers_frame.
Qed.

(** The last write wins: writing a record over another leaves the store as
    writing it alone does, and so does deleting after writing with respect
    to deleting alone, and deleting twice with respect to deleting once. *)
Theorem WriteBorReceipt_overwrite
    (db : DB) (hash : Hash) (number : N) (first second : Receipt)
    (encoded1 encoded2 : bytes) :
  EncodeToBytes first = Ok encoded1 →
  EncodeToBytes second = Ok encoded2 →
  let write r db := world (run (WriteBorReceipt hash number r) db) in
  let delete db := world (run (DeleteBorReceipt hash number) db) in
  write second (write first db) = write second db
  ∧ delete (write first db) = delete db
  ∧ delete (delete db) = delete db
  ∧ kv (write second (write first db)) !! borReceiptKey number hash = Some encoded2.
Proof.
  intros H1 H2 write delete. subst write delete. cbv beta.
  rewrite !(run_WriteBorReceipt_DB _ _ _ _ _ H1), !(run_WriteBorReceipt_DB _ _ _ _ _ H2),
    !run_DeleteBorReceipt_DB.
  cbn [world]. unfold kvPut, kvDelete. cbn [kv freezer].
  split_and!.
  - by rewrite insert_insert_eq.
  - by rewrite delete_insert_eq.
  - f_equal. apply delete_id, lookup_delete_eq.
  - apply lookup_insert_eq.
Qed.

(** ** The read against the freezer at work *)

(** A block that the freezer moves while it is read is still found. The
    record is in the key-value store, non-empty, and not yet in the ancient
    store; the freezer moves the block, with hash bytes that make the
    queried hash, right after the first call of the reader ([k] is zero)
    or after a later one. Then [ReadBorReceiptRLP] returns the record: from
    the second ancient probe when the move falls between the first probe
    and the probe of the key-value store, and from the key-value store
    when the move comes later. *)
Theorem ReadBorReceiptRLP_during_migration
    (db : DB) (hash : Hash) (number : N) (data hashBytes : bytes) (k : nat) :
  kv db !! borReceiptKey number hash = Some data →
  data ≠ [] →
  nonEmpty (ancientGet freezerBorReceiptTable number db).1 = false →
  BytesToHash hashBytes = hash →
  let move := freeze freezerBorReceiptTable freezerHashTable number hashBytes
                (borReceiptKey number hash) in
  value (run (ReadBorReceiptRLP hash number)
           (mkRacing db (replicate k id ++ [move])))
  = Some data.
Proof.
  intros Hkv Hne Hanc Hhash move.
  assert (Hlen : nonEmpty data = true) by (by destruct data).
  assert (Hget : kvGet (borReceiptKey number hash) db = (data, None))
    by (unfold kvGet; by rewrite Hkv).
  destruct (ancientGet freezerBorReceiptTable number db) as [old err] eqn:Hold.
  cbn [fst] in Hanc.
  destruct k as [| k].
  - (* the move falls between the first probe and the probe of the store *)
    assert (Hgone : kvGet (borReceiptKey number hash) (move db)
                    = (nil_bytes, Some errNotFound)).
    { unfold kvGet, move, freeze. cbn [kv]. by rewrite lookup_delete_eq. }
    assert (Hrec : ancientGet freezerBorReceiptTable number (move db) = (data, None)).
    { unfold ancientGet, move, freeze. cbn [freezer].
      rewrite lookup_insert_ne by done. rewrite lookup_insert_eq. by rewrite Hkv. }
    assert (Hh : ancientGet freezerHashTable number (move db) = (hashBytes, None)).
    { unfold ancientGet, move, freeze. cbn [freezer]. by rewrite lookup_insert_eq. }
    unfold ReadBorReceiptRLP. cbn. rewrite Hold. cbn. rewrite Hanc. cbn.
    rewrite Hgone. cbn. rewrite nonEmpty_nil. cbn. rewrite Hrec. cbn.
    rewrite Hlen. cbn. rewrite Hh. cbn. by rewrite bool_decide_eq_true_2.
  - (* the move comes after the probe of the store *)
    unfold ReadBorReceiptRLP. cbn. rewrite Hold. cbn. rewrite Hanc. cbn.
    rewrite Hget. cbn. by rewrite Hlen.
Qed.
End BorReceipt.

(** ** The accessors on the small instance *)

Abbreviation sHasBorReceipt := (HasBorReceipt Sample.BytesToHash Sample.borReceiptKey).
Abbreviation sReadBorReceiptRLP :=
  (ReadBorReceiptRLP Sample.BytesToHash Sample.borReceiptKey).
Abbreviation sReadRawBorReceipt :=
  (ReadRawBorReceipt Sample.HashBytes Sample.BytesToHash Sample.borReceiptKey
     Sample.DecodeBytes_receipt Sample.DecodeBytes_receipts).
Abbreviation sReadBorReceipt :=
  (ReadBorReceipt Sample.HashBytes Sample.BytesToHash Sample.borReceiptKey
     Sample.DecodeBytes_receipt Sample.DecodeBytes_receipts
     Sample.ReadRawReceipts Sample.ReadBody Sample.DeriveFieldsForBorReceipt).
Abbreviation sWriteBorReceipt :=
  (WriteBorReceipt Sample.borReceiptKey Sample.EncodeToBytes).
Abbreviation sDeleteBorReceipt := (DeleteBorReceipt Sample.borReceiptKey).
Abbreviation sReadBorTransaction :=
  (ReadBorTransaction Sample.zeroHash Sample.HashBytes Sample.Transactions
     Sample.ReadBody Sample.ReadCanonicalHash Sample.NewBorTransaction).
Abbreviation sReadBorTxLookupEntry := (ReadBorTxLookupEntry Sample.HashBytes).
Abbreviation sWriteBorTxLookupEntry :=
  (WriteBorTxLookupEntry Sample.HashBytes Sample.borReceiptKey
     Sample.getDerivedBorTxHash).

Example SetUint64_Bytes_256 : SetUint64_Bytes 256 = [Byte.x01; Byte.x00].
Proof. reflexivity. Qed.

Example SetUint64_Bytes_0 : SetUint64_Bytes 0 = [].
Proof. reflexivity. Qed.

Example Uint64_SetBytes_ffff : Uint64 (SetBytes [Byte.xff; Byte.xff]) = 65535.
Proof. reflexivity. Qed.

(** A record in the key-value store is found by the second probe. *)
Example read_live100 :
  let r := run (sReadBorReceiptRLP Sample.hashAB 100) Sample.live100 in
  trace r = [Ancient freezerBorReceiptTable 100;
             Get (Sample.borReceiptKey 100 Sample.hashAB)]
  ∧ value r = Some Sample.receiptBytes.
Proof. vm_compute. split; reflexivity. Qed.

(** The race the third probe is there for: the freezer moves the block
    after the first probe, the key-value store has lost it by the second,
    and the third probe finds it in the ancient store. *)
Example read_migrating100 :
  let r := run (sReadBorReceiptRLP Sample.hashAB 100) Sample.migrating100 in
  trace r = [Ancient freezerBorReceiptTable 100;
             Get (Sample.borReceiptKey 100 Sample.hashAB);
             Ancient freezerBorReceiptTable 100;
             Ancient freezerHashTable 100]
  ∧ value r = Some Sample.receiptBytes.
Proof. vm_compute. split; reflexivity. Qed.

(** Ancient bytes under the recorded hash are returned by the first probe. *)
Example read_frozen50 :
  let r := run (sReadBorReceiptRLP Sample.hashCD 50) Sample.frozen50 in
  trace r = [Ancient freezerBorReceiptTable 50; Ancient freezerHashTable 50]
  ∧ value r = Some Sample.receiptBytes.
Proof. vm_compute. split; reflexivity. Qed.

(** Witness of [ReadBorReceiptRLP_mismatched_ancient]: block 50 is frozen
    under 0xcd..cd and asked for under 0xef..ef. *)
Lemma ReadBorReceiptRLP_mismatched_ancient_witness :
  run (sReadBorReceiptRLP Sample.hashEF 50) Sample.frozen50
  = Result [Ancient freezerBorReceiptTable 50; Ancient freezerHashTable 50;
            Get (Sample.borReceiptKey 50 Sample.hashEF);
            Ancient freezerBorReceiptTable 50; Ancient freezerHashTable 50]
           Sample.frozen50 (Some nil_bytes).
Proof.
  rewrite (ReadBorReceiptRLP_mismatched_ancient Sample.BytesToHash
             Sample.borReceiptKey Sample.frozen50 Sample.hashEF 50
             Sample.receiptBytes).
  - vm_compute. reflexivity.
  - vm_compute. reflexivity.
  - discriminate.
  - vm_compute. discriminate.
Defined.

(** Witness of [ReadBorReceiptRLP_probe_sequence]: nothing is stored for
    block 100, the three probes miss. *)
Lemma ReadBorReceiptRLP_probe_sequence_witness :
  run (sReadBorReceiptRLP Sample.hashAB 100) Sample.emptyDB
  = Result [Ancient freezerBorReceiptTable 100;
            Get (Sample.borReceiptKey 100 Sample.hashAB);
            Ancient freezerBorReceiptTable 100]
           Sample.emptyDB (Some nil_bytes).
Proof.
  pose proof (proj2 (ReadBorReceiptRLP_probe_sequence Sample.BytesToHash
                       Sample.borReceiptKey Sample.hashAB 100 Sample.emptyDB)) as H.
  cbv zeta in H. rewrite H.
  - vm_compute. reflexivity.
  - vm_compute. reflexivity.
  - vm_compute. reflexivity.
  - vm_compute. reflexivity.
Defined.

(** Witness of [WriteBorReceipt_read_delete]: the receipt 7 written for
    block 100 into an empty database, read, deleted, read. *)
Lemma WriteBorReceipt_read_delete_witness :
  let written := run (sWriteBorReceipt Sample.hashAB 100 7) Sample.emptyDB in
  let deleted := run (sDeleteBorReceipt Sample.hashAB 100) (world written) in
  value (run (sReadBorReceiptRLP Sample.hashAB 100) (world written))
  = Some Sample.receiptBytes
  ∧ value (run (sReadBorReceiptRLP Sample.hashAB 100) (world deleted))
    = Some nil_bytes.
Proof.
  destruct (WriteBorReceipt_read_delete Sample.BytesToHash Sample.borReceiptKey
              Sample.EncodeToBytes Sample.emptyDB Sample.hashAB 100 7
              Sample.receiptBytes eq_refl eq_refl)
    as (_ & _ & Hread & _ & Hgone).
  split; assumption.
Defined.

(** Witness of [decodeBorReceipt_Decode]: the bytes of block 100 decode to
    the receipt 7. *)
Lemma decodeBorReceipt_Decode_witness :
  let r := run (sReadRawBorReceipt Sample.hashAB 100) Sample.live100 in
  trace r = [Ancient freezerBorReceiptTable 100;
             Get (Sample.borReceiptKey 100 Sample.hashAB)]
  ∧ value r = Some (Some 7).
Proof.
  pose proof (proj2 (decodeBorReceipt_Decode Sample.HashBytes Sample.BytesToHash
                       Sample.borReceiptKey Sample.DecodeBytes_receipt
                       Sample.DecodeBytes_receipts Sample.hashAB 100
                       Sample.receiptBytes Sample.live100)) as H.
  cbv zeta in H. rewrite H.
  - vm_compute. split; reflexivity.
  - vm_compute. reflexivity.
  - discriminate.
Defined.

(** The legacy forms on the small instance: a sequence of one receipt, an
    empty sequence, a sequence of two, and bytes that are neither. *)
Example Decode_sequence_of_one :
  Decode Sample.DecodeBytes_receipt Sample.DecodeBytes_receipts [Byte.x02; Byte.x07]
  = inl 7.
Proof. reflexivity. Qed.

Example Decode_empty_sequence :
  Decode Sample.DecodeBytes_receipt Sample.DecodeBytes_receipts [Byte.x02]
  = inr (InvalidLength 0).
Proof. reflexivity. Qed.

Example Decode_sequence_of_two :
  Decode Sample.DecodeBytes_receipt Sample.DecodeBytes_receipts
    [Byte.x02; Byte.x07; Byte.x08]
  = inr (InvalidLength 2).
Proof. reflexivity. Qed.

Example Decode_malformed :
  Decode Sample.DecodeBytes_receipt Sample.DecodeBytes_receipts [Byte.x03]
  = inr (Malformed "rlp: expected a list").
Proof. reflexivity. Qed.

(** [C6], as the design words it, fails on a key-value store that holds the
    empty value at the record key: [HasBorReceipt] returns [true], while
    the ancient store records no hash for the block and the value at the
    record key is not non-empty. *)
Lemma HasBorReceipt_nonempty_counterexample :
  ¬ (value (run (sHasBorReceipt Sample.hashAB 100)
              (emptyValueDB (Sample.borReceiptKey 100 Sample.hashAB)))
     = Some true
     ↔ (∃ h, freezer (emptyValueDB (Sample.borReceiptKey 100 Sample.hashAB))
               !! (freezerHashTable, 100) = Some h
             ∧ Sample.BytesToHash h = Sample.hashAB)
       ∨ (∃ v, kv (emptyValueDB (Sample.borReceiptKey 100 Sample.hashAB))
                 !! Sample.borReceiptKey 100 Sample.hashAB = Some v
               ∧ v ≠ [])).
Proof.
  intros [Hto _].
  destruct Hto as [(h & Hh & _) | (v & Hv & Hne)].
  - vm_compute. reflexivity.
  - unfold emptyValueDB in Hh. cbn [freezer] in Hh. by rewrite lookup_empty in Hh.
  - unfold emptyValueDB in Hv. cbn [kv] in Hv.
    rewrite lookup_singleton_eq in Hv. by simplify_eq.
Qed.

(** Witness of [ReadBorReceipt_enriched]: block 100 without its receipts,
    without its body, with receipts the derivation rejects, and whole. *)
Lemma ReadBorReceipt_enriched_witness :
  value (run (sReadBorReceipt Sample.hashAB 100) Sample.onlyReceipt100) = Some None
  ∧ value (run (sReadBorReceipt Sample.hashAB 100) Sample.noBody100) = Some None
  ∧ value (run (sReadBorReceipt Sample.hashAB 100) Sample.overflow100) = Some None
  ∧ value (run (sReadBorReceipt Sample.hashAB 100) Sample.live100) = Some (Some 18).
Proof.
  pose proof (λ db : DB, ReadBorReceipt_enriched Sample.HashBytes Sample.BytesToHash
                      Sample.borReceiptKey Sample.DecodeBytes_receipt
                      Sample.DecodeBytes_receipts Sample.ReadRawReceipts
                      Sample.ReadBody Sample.DeriveFieldsForBorReceipt
                      Sample.hashAB 100 db 7) as H.
  cbv zeta in H. split_and!.
  - destruct (H Sample.onlyReceipt100) as (Ha & _); [by vm_compute |].
    rewrite Ha; [done | by vm_compute].
  - destruct (H Sample.noBody100) as (_ & Hb & _); [by vm_compute |].
    rewrite (Hb [5; 6]); [done | by vm_compute | by vm_compute].
  - destruct (H Sample.overflow100) as (_ & _ & Hc & _); [by vm_compute |].
    rewrite (Hc [255; 255] [1; 2] "gas overflow"%string);
      [done | by vm_compute | by vm_compute | by vm_compute].
  - destruct (H Sample.live100) as (_ & _ & _ & Hd); [by vm_compute |].
    rewrite (Hd [5; 6] [1; 2]); [done | by vm_compute | by vm_compute | by vm_compute].
Defined.

(** Witness of [ReadBorTransaction_absent]: the derived hash of block 100
    looked up in an empty database, with the index entry alone, with the
    canonical hash but no body, and with the whole block. *)
Lemma ReadBorTransaction_absent_witness :
  value (run (sReadBorTransaction Sample.txHash100) Sample.emptyDB)
  = Some (noTransaction Sample.zeroHash)
  ∧ value (run (sReadBorTransaction Sample.txHash100) Sample.indexedOnly100)
    = Some (noTransaction Sample.zeroHash)
  ∧ value (run (sReadBorTransaction Sample.txHash100) Sample.indexedNoBody100)
    = Some (noTransaction Sample.zeroHash)
  ∧ Sample.hashAB ≠ Sample.zeroHash.
Proof.
  pose proof (λ db : DB, ReadBorTransaction_absent Sample.zeroHash Sample.HashBytes
                      Sample.Transactions Sample.ReadBody Sample.ReadCanonicalHash
                      Sample.NewBorTransaction Sample.txHash100 db) as H.
  cbv zeta in H. split_and!.
  - destruct (H Sample.emptyDB) as (Ha & _). apply Ha. by vm_compute.
  - destruct (H Sample.indexedOnly100) as (_ & Hb & _).
    destruct (Hb 100) as (Hzero & _); [by vm_compute |].
    apply Hzero. by vm_compute.
  - destruct (H Sample.indexedNoBody100) as (_ & Hb & _).
    destruct (Hb 100) as (_ & Hbody); [by vm_compute |].
    apply (Hbody Sample.hashAB); by vm_compute.
  - destruct (H Sample.indexed100) as (_ & _ & Hc).
    apply (Hc 0 Sample.hashAB 100 2). by vm_compute.
Defined.

(** The scenario of the design: a record written for block 100 is read
    back; after [DeleteBorReceipt] it is absent, while the reverse index
    still gives 100. *)
Example scenario_write_delete_index :
  let db1 := world (run (sWriteBorReceipt Sample.hashAB 100 7) Sample.emptyDB) in
  let db2 := world (run (sWriteBorTxLookupEntry Sample.hashAB 100) db1) in
  let db3 := world (run (sDeleteBorReceipt Sample.hashAB 100) db2) in
  value (run (sReadBorReceiptRLP Sample.hashAB 100) db2) = Some Sample.receiptBytes
  ∧ value (run (sReadBorReceiptRLP Sample.hashAB 100) db3) = Some nil_bytes
  ∧ value (run (sReadBorTxLookupEntry Sample.txHash100) db3) = Some (Some 100).
Proof. vm_compute. split_and!; reflexivity. Qed.

(** Block zero on the small instance: written to the reverse index and not
    read back. *)
Example index_block_zero :
  let txHash := Sample.getDerivedBorTxHash (Sample.borReceiptKey 0 Sample.zeroHash) in
  value (run (sReadBorTxLookupEntry txHash)
           (world (run (sWriteBorTxLookupEntry Sample.zeroHash 0) Sample.emptyDB)))
  = Some None.
Proof. vm_compute. reflexivity. Qed.

(** ** Further runs on the small instance *)

Abbreviation sReadBorTransactionWithBlockHash :=
  (ReadBorTransactionWithBlockHash Sample.zeroHash Sample.HashBytes
     Sample.Transactions Sample.ReadBody Sample.NewBorTransaction).
Abbreviation sDeleteBorTxLookupEntry :=
  (DeleteBorTxLookupEntry Sample.HashBytes Sample.borReceiptKey
     Sample.getDerivedBorTxHash).

(** Witness of [ReadRawBorReceipt_absent]: nothing is stored for block 100. *)
Lemma ReadRawBorReceipt_absent_witness :
  let r := run (sReadRawBorReceipt Sample.hashAB 100) Sample.emptyDB in
  trace r = [Ancient freezerBorReceiptTable 100;
             Get (Sample.borReceiptKey 100 Sample.hashAB);
             Ancient freezerBorReceiptTable 100]
  ∧ value r = Some None.
Proof.
  cbv zeta.
  rewrite (ReadRawBorReceipt_absent Sample.HashBytes Sample.BytesToHash
             Sample.borReceiptKey Sample.DecodeBytes_receipt
             Sample.DecodeBytes_receipts Sample.hashAB 100 Sample.emptyDB).
  - vm_compute. split; reflexivity.
  - vm_compute. reflexivity.
Defined.

(** Witness of [ReadBorReceipt_without_raw]: block 100 with nothing stored
    and with bytes that do not decode. *)
Lemma ReadBorReceipt_without_raw_witness :
  value (run (sReadBorReceipt Sample.hashAB 100) Sample.emptyDB) = Some None
  ∧ run (sReadBorReceipt Sample.hashAB 100) Sample.garbled100
    = run (sReadRawBorReceipt Sample.hashAB 100) Sample.garbled100.
Proof.
  split.
  - rewrite (ReadBorReceipt_without_raw Sample.HashBytes Sample.BytesToHash
               Sample.borReceiptKey Sample.DecodeBytes_receipt
               Sample.DecodeBytes_receipts Sample.ReadRawReceipts Sample.ReadBody
               Sample.DeriveFieldsForBorReceipt Sample.hashAB 100 Sample.emptyDB);
      by vm_compute.
  - apply (ReadBorReceipt_without_raw Sample.HashBytes Sample.BytesToHash
             Sample.borReceiptKey Sample.DecodeBytes_receipt
             Sample.DecodeBytes_receipts Sample.ReadRawReceipts Sample.ReadBody
             Sample.DeriveFieldsForBorReceipt Sample.hashAB 100 Sample.garbled100).
    by vm_compute.
Defined.

(** Witness of [WriteBorReceipt_ReadRawBorReceipt]: the receipt 7 written
    for block 100 into an empty database. *)
Lemma WriteBorReceipt_ReadRawBorReceipt_witness :
  value (run (sReadRawBorReceipt Sample.hashAB 100)
           (world (run (sWriteBorReceipt Sample.hashAB 100 7) Sample.emptyDB)))
  = Some (Some 7).
Proof.
  apply (WriteBorReceipt_ReadRawBorReceipt Sample.HashBytes Sample.BytesToHash
           Sample.borReceiptKey Sample.DecodeBytes_receipt
           Sample.DecodeBytes_receipts Sample.EncodeToBytes Sample.emptyDB
           Sample.hashAB 100 7 7 Sample.receiptBytes).
  - reflexivity.
  - discriminate.
  - reflexivity.
  - by vm_compute.
Defined.

(** A receipt the codec refuses ends [WriteBorReceipt] before any call. *)
Example WriteBorReceipt_refused :
  run (WriteBorReceipt Sample.borReceiptKey Sample.EncodeSmall Sample.hashAB 100 300)
      Sample.emptyDB
  = Result [LogCrit "Failed to encode bor receipt"
              [("err", LErr "rlp: receipt too large")]]
           Sample.emptyDB None.
Proof. reflexivity. Qed.

(** Witness of [writers_fatal_on_error]: block 100 on a database that
    refuses writes. *)
Lemma writers_fatal_on_error_witness :
  let w := mkReadOnly Sample.live100 in
  value (run (sDeleteBorReceipt Sample.hashAB 100) w) = None
  ∧ value (run (sWriteBorTxLookupEntry Sample.hashAB 100) w) = None
  ∧ value (run (sDeleteBorTxLookupEntry Sample.hashAB 100) w) = None.
Proof.
  cbv zeta.
  destruct (writers_fatal_on_error Sample.HashBytes Sample.borReceiptKey
              Sample.getDerivedBorTxHash Sample.hashAB 100
              (mkReadOnly Sample.live100) errReadOnly) as (Hd & Hp & Hr).
  rewrite (Hd eq_refl), (Hp eq_refl), (proj1 (Hr eq_refl)).
  by split_and!.
Defined.

(** Witness of [HasBorReceipt_after_write_delete]: the receipt 7 for block
    100 on an empty database. *)
Lemma HasBorReceipt_after_write_delete_witness :
  value (run (sHasBorReceipt Sample.hashAB 100)
           (world (run (sWriteBorReceipt Sample.hashAB 100 7) Sample.emptyDB)))
  = Some true.
Proof.
  exact (proj1 (HasBorReceipt_after_write_delete Sample.BytesToHash
                  Sample.borReceiptKey Sample.EncodeToBytes Sample.emptyDB
                  Sample.hashAB 100 7 Sample.receiptBytes eq_refl)).
Defined.

(** Witness of [ReadBorReceiptRLP_found_HasBorReceipt]: block 100 in the
    key-value store. *)
Lemma ReadBorReceiptRLP_found_HasBorReceipt_witness :
  value (run (sHasBorReceipt Sample.hashAB 100) Sample.live100) = Some true.
Proof.
  apply (ReadBorReceiptRLP_found_HasBorReceipt Sample.BytesToHash
           Sample.borReceiptKey Sample.live100 Sample.hashAB 100
           Sample.receiptBytes).
  - intros _. vm_compute. discriminate.
  - by vm_compute.
  - discriminate.
Defined.

(** Witness of [ReadBorReceiptRLP_ignores_hash_error]: record bytes for
    block 50 and no hash, asked for under the zero hash. *)
Lemma ReadBorReceiptRLP_ignores_hash_error_witness :
  value (run (sReadBorReceiptRLP (Sample.BytesToHash nil_bytes) 50)
           (recordOnlyDB 50 Sample.receiptBytes))
  = Some Sample.receiptBytes
  ∧ value (run (sHasBorReceipt (Sample.BytesToHash nil_bytes) 50)
             (recordOnlyDB 50 Sample.receiptBytes))
    = Some false.
Proof.
  apply (ReadBorReceiptRLP_ignores_hash_error Sample.BytesToHash
           Sample.borReceiptKey 50 Sample.receiptBytes).
  discriminate.
Defined.

(** Witness of [ReadBorTransactionWithBlockHash_outcomes]: the derived hash
    of block 100 without an index entry, with the entry and no body, and
    with the whole block. *)
Lemma ReadBorTransactionWithBlockHash_outcomes_witness :
  value (run (sReadBorTransactionWithBlockHash Sample.txHash100 Sample.hashAB)
           Sample.emptyDB)
  = Some (noTransaction Sample.zeroHash)
  ∧ value (run (sReadBorTransactionWithBlockHash Sample.txHash100 Sample.hashAB)
             Sample.indexedOnly100)
    = Some (noTransaction Sample.zeroHash)
  ∧ value (run (sReadBorTransactionWithBlockHash Sample.txHash100 Sample.hashAB)
             Sample.indexed100)
    = Some (Some 0, Sample.hashAB, 100, 2).
Proof.
  pose proof (λ db : DB, ReadBorTransactionWithBlockHash_outcomes Sample.zeroHash
                Sample.HashBytes Sample.Transactions Sample.ReadBody
                Sample.NewBorTransaction Sample.txHash100 Sample.hashAB db) as H.
  cbv zeta in H. split_and!.
  - destruct (H Sample.emptyDB) as (Ha & _). rewrite Ha; by vm_compute.
  - destruct (H Sample.indexedOnly100) as (_ & Hb).
    destruct (Hb 100) as (Hbody & _); [by vm_compute |].
    rewrite Hbody; by vm_compute.
  - destruct (H Sample.indexed100) as (_ & Hb).
    destruct (Hb 100) as (_ & Hfound); [by vm_compute |].
    rewrite (Hfound [1; 2]); by vm_compute.
Defined.

(** Witness of [ReadBorTransaction_found]: the whole block 100. *)
Lemma ReadBorTransaction_found_witness :
  value (run (sReadBorTransaction Sample.txHash100) Sample.indexed100)
  = Some (Some 0, Sample.hashAB, 100, 2).
Proof.
  rewrite (ReadBorTransaction_found Sample.zeroHash Sample.HashBytes
             Sample.Transactions Sample.ReadBody Sample.ReadCanonicalHash
             Sample.NewBorTransaction Sample.txHash100 Sample.hashAB 100 [1; 2]
             Sample.indexed100).
  - reflexivity.
  - by vm_compute.
  - by vm_compute.
  - vm_compute. discriminate.
  - by vm_compute.
Defined.

(** Witness of [WriteBorTxLookupEntry_read_positive]: block 100. *)
Lemma WriteBorTxLookupEntry_read_positive_witness :
  value (run (sReadBorTxLookupEntry Sample.txHash100)
           (world (run (sWriteBorTxLookupEntry Sample.hashAB 100) Sample.emptyDB)))
  = Some (Some 100).
Proof.
  apply (WriteBorTxLookupEntry_read_positive Sample.HashBytes Sample.borReceiptKey
           Sample.getDerivedBorTxHash Sample.emptyDB Sample.hashAB 100).
  - reflexivity.
  - reflexivity.
Defined.

(** Witness of [WriteBorTxLookupEntry_stored_form]: block 100 is stored as
    the one byte 0x64. *)
Lemma WriteBorTxLookupEntry_stored_form_witness :
  ∃ v : bytes,
    trace (run (sWriteBorTxLookupEntry Sample.hashAB 100) Sample.emptyDB)
    = [Put Sample.lookupKey100 v]
    ∧ (length v ≤ 8)%nat ∧ SetBytes v = 100.
Proof.
  destruct (WriteBorTxLookupEntry_stored_form Sample.HashBytes Sample.borReceiptKey
              Sample.getDerivedBorTxHash Sample.emptyDB Sample.hashAB 100 eq_refl)
    as (v & Htrace & Hlen & _ & Hval & _).
  exists v. split_and!; assumption.
Defined.

(** Witness of [ReadBorTxLookupEntry_stored]: no entry, and an entry of
    nine bytes whose last eight are those of 100. *)
Lemma ReadBorTxLookupEntry_stored_witness :
  value (run (sReadBorTxLookupEntry Sample.txHash100) Sample.emptyDB) = Some None
  ∧ value (run (sReadBorTxLookupEntry Sample.txHash100) Sample.longEntry100)
    = Some (Some (SetBytes (bigEndian64 100))).
Proof.
  split.
  - apply (proj1 (ReadBorTxLookupEntry_stored Sample.HashBytes Sample.emptyDB
                    Sample.txHash100)).
    left. reflexivity.
  - apply (proj2 (ReadBorTxLookupEntry_stored Sample.HashBytes Sample.longEntry100
                    Sample.txHash100) [Byte.x01] (bigEndian64 100)).
    + by vm_compute.
    + reflexivity.
Defined.

(** Witness of [index_entries_independent]: the entry of block 100 and the
    hash 0xef..ef. *)
Lemma index_entries_independent_witness :
  value (run (sReadBorTxLookupEntry Sample.hashEF)
           (world (run (sWriteBorTxLookupEntry Sample.hashAB 100) Sample.emptyDB)))
  = value (run (sReadBorTxLookupEntry Sample.hashEF) Sample.emptyDB).
Proof.
  apply (proj1 (index_entries_independent Sample.HashBytes Sample.borReceiptKey
                  Sample.getDerivedBorTxHash Sample.emptyDB Sample.hashAB 100
                  Sample.hashEF ltac:(vm_compute; discriminate))).
Defined.

(** Witness of [record_and_index_independent]: the record of block 100 is
    deleted and the index entry of block 100 stays. *)
Lemma record_and_index_independent_witness :
  value (run (sReadBorTxLookupEntry Sample.txHash100)
           (world (run (sDeleteBorReceipt Sample.hashAB 100) Sample.indexed100)))
  = value (run (sReadBorTxLookupEntry Sample.txHash100) Sample.indexed100).
Proof.
  apply (record_and_index_independent Sample.HashBytes Sample.BytesToHash
           Sample.borReceiptKey Sample.getDerivedBorTxHash Sample.EncodeToBytes
           Sample.indexed100 Sample.hashAB Sample.hashAB 100 100 7
           Sample.receiptBytes ltac:(vm_compute; discriminate) eq_refl).
Defined.

(** Witness of [records_independent]: block 50 is written and block 100 is
    read as before. *)
Lemma records_independent_witness :
  value (run (sReadBorReceiptRLP Sample.hashAB 100)
           (world (run (sWriteBorReceipt Sample.hashCD 50 9) Sample.live100)))
  = value (run (sReadBorReceiptRLP Sample.hashAB 100) Sample.live100).
Proof.
  apply (records_independent Sample.BytesToHash Sample.borReceiptKey
           Sample.EncodeToBytes Sample.live100 Sample.hashAB Sample.hashCD 100 50 9
           [Byte.x01; Byte.x09] ltac:(vm_compute; discriminate) eq_refl).
Defined.

(** Witness of [WriteBorReceipt_overwrite]: the receipt 7 and then the
    receipt 9 for block 100. *)
Lemma WriteBorReceipt_overwrite_witness :
  kv (world (run (sWriteBorReceipt Sample.hashAB 100 9)
               (world (run (sWriteBorReceipt Sample.hashAB 100 7) Sample.emptyDB))))
    !! Sample.borReceiptKey 100 Sample.hashAB
  = Some [Byte.x01; Byte.x09].
Proof.
  apply (WriteBorReceipt_overwrite Sample.borReceiptKey Sample.EncodeToBytes
           Sample.emptyDB Sample.hashAB 100 7 9 Sample.receiptBytes
           [Byte.x01; Byte.x09] eq_refl eq_refl).
Defined.

(** Witness of [ReadBorReceiptRLP_during_migration]: block 100 moved right
    after the first call and after the third. *)
Lemma ReadBorReceiptRLP_during_migration_witness :
  value (run (sReadBorReceiptRLP Sample.hashAB 100) Sample.migrating100)
  = Some Sample.receiptBytes
  ∧ value (run (sReadBorReceiptRLP Sample.hashAB 100)
             (mkRacing Sample.live100
                [id; id;
                 freeze freezerBorReceiptTable freezerHashTable 100 Sample.hashAB
                   (Sample.borReceiptKey 100 Sample.hashAB)]))
    = Some Sample.receiptBytes.
Proof.
  split.
  - apply (ReadBorReceiptRLP_during_migration Sample.BytesToHash
             Sample.borReceiptKey Sample.live100 Sample.hashAB 100
             Sample.receiptBytes Sample.hashAB 0);
      [by vm_compute | discriminate | by vm_compute | by vm_compute].
  - apply (ReadBorReceiptRLP_during_migration Sample.BytesToHash
             Sample.borReceiptKey Sample.live100 Sample.hashAB 100
             Sample.receiptBytes Sample.hashAB 2);
      [by vm_compute | discriminate | by vm_compute | by vm_compute].
Defined.
